(** * youtub-to-transcript: the caption pipeline and the audio pipeline

    A shallow embedding of [youtube_transcript_fetcher.py] and
    [youtube_transcriber.py], and the properties of their URL resolver,
    caption-track selection, reply parser, analysis writer and stream
    selection.

    Python [str] values are lists of Unicode code points, so that
    [str.strip], [str.split] and the regular expressions work on characters
    (the bullet U+2022 is one character), as they do in Python.

    The libraries the programs call ([re], [youtube_transcript_api],
    [requests], [pytube], [ffmpeg], [whisper]) are modelled as far as the
    two files use them; what a remote side answers is an input ([services],
    [platform], [engine]).  Effects are threaded through a
    state-and-exception monad over [world].  The progress callback of
    [youtube_transcriber.py], which only prints a floating-point percentage,
    is not embedded. *)

From Stdlib Require Import NArith Ascii String DecimalString HexadecimalString.
From stdpp Require Import gmap strings list fin_maps sorting.

Set Default Proof Using "Type".
Local Open Scope N_scope.

(** ** Strings *)

Abbreviation char := N.
Abbreviation str := (list N).

(** An ASCII literal of the source as a [str]. *)
Fixpoint py (s : string) : str :=
  match s with
  | EmptyString => []
  | String a s' => N_of_ascii a :: py s'
  end.

Definition nl : char := 10.       (* '\n' *)
Definition sp : char := 32.       (* ' '  *)
Definition bullet : char := 8226. (* U+2022, the bullet of the prompt *)

Definition char_in (cs : str) (c : char) : bool := existsb (N.eqb c) cs.

(** [str.isspace] on one character: the code points Python treats as
    whitespace. *)
Definition isspace (c : char) : bool :=
  ((9 <=? c) && (c <=? 13)) || ((28 <=? c) && (c <=? 32))
  || (c =? 133) || (c =? 160) || (c =? 5760)
  || ((8192 <=? c) && (c <=? 8202))
  || (c =? 8232) || (c =? 8233) || (c =? 8239) || (c =? 8287) || (c =? 12288).

Fixpoint lstrip (p : char -> bool) (s : str) : str :=
  match s with
  | c :: s' => if p c then lstrip p s' else s
  | [] => []
  end.

Definition rstrip (p : char -> bool) (s : str) : str :=
  rev (lstrip p (rev s)).

(** [s.strip()] and [s.strip(chars)]. *)
Definition strip_by (p : char -> bool) (s : str) : str := rstrip p (lstrip p s).
Definition strip (s : str) : str := strip_by isspace s.
Definition strip_chars (cs : str) (s : str) : str := strip_by (char_in cs) s.

(** [s.startswith(prefix)]. *)
Fixpoint startswith (prefix s : str) : bool :=
  match prefix, s with
  | [], _ => true
  | p :: prefix', c :: s' => (c =? p) && startswith prefix' s'
  | _ :: _, [] => false
  end.

(** [sep in s]. *)
Fixpoint contains (sep s : str) : bool :=
  startswith sep s || match s with [] => false | _ :: s' => contains sep s' end.

(** [s.split(sep)] for a non-empty separator: leftmost, non-overlapping
    occurrences.  [skip] counts the characters of a separator still to be
    dropped and [cur] is the current piece, reversed. *)
Fixpoint split_go (sep : str) (skip : nat) (cur : str) (s : str) : list str :=
  match s with
  | [] => [rev cur]
  | c :: s' =>
      match skip with
      | S k => split_go sep k cur s'
      | O =>
          if startswith sep s
          then rev cur :: split_go sep (Nat.pred (length sep)) [] s'
          else split_go sep O (c :: cur) s'
      end
  end.

Definition split (sep s : str) : list str := split_go sep O [] s.

(** [s.replace(old, new)] for a non-empty [old]. *)
Fixpoint replace_go (old new : str) (skip : nat) (s : str) : str :=
  match s with
  | [] => []
  | c :: s' =>
      match skip with
      | S k => replace_go old new k s'
      | O =>
          if startswith old s
          then new ++ replace_go old new (Nat.pred (length old)) s'
          else c :: replace_go old new O s'
      end
  end.

Definition replace (old new s : str) : str := replace_go old new O s.

(** [sep.join(parts)]. *)
Fixpoint join (sep : str) (parts : list str) : str :=
  match parts with
  | [] => []
  | [p] => p
  | p :: ps => p ++ sep ++ join sep ps
  end.

(** ** Exceptions and results *)

Inductive exn_class :=
| ValueError | TypeError | AttributeError | FileNotFoundError
| NoTranscriptFound | HTTPError | FfmpegError | LibraryError
| UnicodeEncodeError.

(** An exception: its class, [str(e)], and the [response] attribute that the
    HTTP library's exceptions carry: [None] when the exception has no such
    attribute, [Some None] when the attribute is Python's [None], and
    [Some (Some body)] when it is a response whose text is [body]. *)
Record exn := Exn {
  exn_cls : exn_class;
  exn_msg : str;
  exn_response : option (option str)
}.

Definition mk_exn (c : exn_class) (msg : str) : exn := Exn c msg None.

Inductive result (A : Type) :=
| Ok (a : A)
| Raise (e : exn).
Arguments Ok {A} a.
Arguments Raise {A} e.

(** ** The world the programs run in *)

(** A stream the platform offers ([pytube]'s [Stream]), with the outcome
    of downloading it. *)
Record Stream := {
  itag : N;
  s_audio_type : bool;          (* [type == "audio"]; otherwise video *)
  is_progressive : bool;        (* audio and video in one file *)
  abr : option N;               (* the digits of ["128kbps"], [None] if unknown *)
  resolution : option N;        (* the digits of ["720p"], [None] if none *)
  default_stem : str;           (* file name without suffix *)
  default_suffix : str;         (* [".mp4"], [".webm"], ... *)
  s_download : result str       (* what downloading the stream gives *)
}.

(** The process environment (after [load_dotenv()]), the file system, what
    was printed, the number of network calls made so far, and the stream
    list the [YouTube] object has cached.  [w_dirs] holds the paths that
    name a directory, and [w_files] those that name a regular file, as seen
    from the working directory.
    Making a directory or a file fails when the directory above it is
    missing, and writing a text fails when it cannot be encoded; other
    faults of the file system (permissions, a full disk, a regular file
    where a directory is wanted) are outside the model. *)
Record world := World {
  w_env : gmap string str;
  w_files : gmap str str;
  w_dirs : gset str;
  w_stdout : list str;
  w_net_calls : nat;
  w_fmt_streams : option (list Stream)
}.

Definition M (A : Type) : Type := world -> result A * world.

#[export] Instance M_ret : MRet M := fun A a w => (Ok a, w).
#[export] Instance M_bind : MBind M := fun A B f m w =>
  match m w with
  | (Ok a, w') => f a w'
  | (Raise e, w') => (Raise e, w')
  end.

Definition raise {A} (e : exn) : M A := fun w => (Raise e, w).

Definition lift {A} (r : result A) : M A := fun w => (r, w).

(** [try: m except Exception as e: h e] *)
Definition try_except {A} (m : M A) (h : exn -> M A) : M A := fun w =>
  match m w with
  | (Ok a, w') => (Ok a, w')
  | (Raise e, w') => h e w'
  end.

Definition print (s : str) : M unit := fun w =>
  (Ok tt, World (w_env w) (w_files w) (w_dirs w) (w_stdout w ++ [s])
                (w_net_calls w) (w_fmt_streams w)).

(** A call that goes to the network, with the outcome the remote side
    gives. *)
Definition net {A} (r : result A) : M A := fun w =>
  (r, World (w_env w) (w_files w) (w_dirs w) (w_stdout w)
            (S (w_net_calls w)) (w_fmt_streams w)).

(** [os.getenv(name)] *)
Definition getenv (name : string) : M (option str) := fun w =>
  (Ok (w_env w !! name), w).

Fixpoint take_while (p : char -> bool) (s : str) : str :=
  match s with
  | c :: s' => if p c then c :: take_while p s' else []
  | [] => []
  end.

(** [os.path.dirname(path)]: what stands before the last [/], without the
    slashes it ends in; empty when [path] has no [/]. *)
Fixpoint after_slash (s : str) : option str :=
  match s with
  | [] => None
  | c :: s' => if c =? 47 then Some s' else after_slash s'
  end.

Definition dirname (path : str) : str :=
  match after_slash (rev path) with
  | Some d =>
      let head := rev (47 :: d) in
      if forallb (N.eqb 47) head then head else rstrip (N.eqb 47) head
  | None => []
  end.

(** Whether the directory [dir] is there; the working directory (the empty
    name, or [.]), the one above it and the root always are. *)
Definition dir_exists (dir : str) (w : world) : bool :=
  match dir with
  | [] => true
  | _ :: _ =>
      bool_decide (dir ∈ [py "."; py ".."; py "/"])
      || bool_decide (dir ∈ w_dirs w)
  end.

Definition no_such_file (path : str) : exn :=
  mk_exn FileNotFoundError
    (py "[Errno 2] No such file or directory: '" ++ path ++ py "'").

(** [Path(dir).mkdir(exist_ok=True)]: no [parents=True], so the directory
    above [dir] must be there. *)
Definition mkdir (dir : str) : M unit := fun w =>
  if dir_exists (dirname dir) w then
    (Ok tt, World (w_env w) (w_files w) ({[dir]} ∪ w_dirs w) (w_stdout w)
                  (w_net_calls w) (w_fmt_streams w))
  else (Raise (no_such_file dir), w).

(** A file written by one of the libraries ([pytube], [ffmpeg]), which make
    the directories they need. *)
Definition write_file (path content : str) : M unit := fun w =>
  (Ok tt, World (w_env w) (<[path := content]> (w_files w)) (w_dirs w)
                (w_stdout w) (w_net_calls w) (w_fmt_streams w)).

(** [open(path, "w", encoding="utf-8")] for a file of the directory [dir]:
    the file is made, or emptied. *)
Definition open_in (dir path : str) : M unit := fun w =>
  if dir_exists dir w then
    (Ok tt, World (w_env w) (<[path := []]> (w_files w)) (w_dirs w)
                  (w_stdout w) (w_net_calls w) (w_fmt_streams w))
  else (Raise (no_such_file path), w).

Definition open_w (path : str) : M unit := open_in (dirname path) path.

(** The text [s] added to the end of the open file. *)
Definition f_append (path s : str) : M unit := fun w =>
  (Ok tt, World (w_env w)
                (<[path := default [] (w_files w !! path) ++ s]> (w_files w))
                (w_dirs w) (w_stdout w) (w_net_calls w) (w_fmt_streams w)).

(** UTF-8 has no encoding for the surrogate code points [U+D800..U+DFFF],
    which a Python [str] can hold. *)
Definition is_surrogate (c : char) : bool := (55296 <=? c) && (c <=? 57343).

Definition encodable (s : str) : bool := forallb (fun c => negb (is_surrogate c)) s.

(** [str(n)] for an [int]. *)
Definition str_of_int (n : N) : str :=
  py (DecimalString.NilZero.string_of_uint (N.to_uint n)).

(** [str(e)] of the [UnicodeEncodeError] for [s]: it names the first run of
    surrogates. *)
Definition encode_error_msg (s : str) : str :=
  let before := take_while (fun c => negb (is_surrogate c)) s in
  let bad := take_while is_surrogate (drop (length before) s) in
  let start := N.of_nat (length before) in
  match bad with
  | [c] =>
      py "'utf-8' codec can't encode character '\u"
      ++ py (HexadecimalString.NilZero.string_of_uint (N.to_hex_uint c))
      ++ py "' in position " ++ str_of_int start
      ++ py ": surrogates not allowed"
  | _ =>
      py "'utf-8' codec can't encode characters in position "
      ++ str_of_int start ++ py "-"
      ++ str_of_int (start + N.of_nat (length bad) - 1)
      ++ py ": surrogates not allowed"
  end.

(** [f.write(s)]: the text is encoded when it is written, all of it or
    nothing; what was written before stays in the file. *)
Definition f_write (path s : str) : M unit :=
  if encodable s then f_append path s
  else raise (mk_exn UnicodeEncodeError (encode_error_msg s)).

(** [with open(path, "w", encoding="utf-8") as f: f.write(...)] for a file of
    the directory [dir] and a text that encodes (what the caption service
    and the speech engine give is decoded text, without surrogates), the
    writes concatenated. *)
Definition write_text_in (dir path content : str) : M unit := fun w =>
  if dir_exists dir w then
    (Ok tt, World (w_env w) (<[path := content]> (w_files w)) (w_dirs w)
                  (w_stdout w) (w_net_calls w) (w_fmt_streams w))
  else (Raise (no_such_file path), w).

Definition write_text (path content : str) : M unit :=
  write_text_in (dirname path) path content.

(** [open(path, "r").read()] *)
Definition read_file (path : str) : M str := fun w =>
  match w_files w !! path with
  | Some c => (Ok c, w)
  | None => (Raise (no_such_file path), w)
  end.

(** [path.unlink()] *)
Definition unlink (path : str) : M unit := fun w =>
  match w_files w !! path with
  | Some _ =>
      (Ok tt, World (w_env w) (delete path (w_files w)) (w_dirs w)
                    (w_stdout w) (w_net_calls w) (w_fmt_streams w))
  | None => (Raise (no_such_file path), w)
  end.

(** [dir / name] *)
Definition path_join (dir name : str) : str := dir ++ py "/" ++ name.

(** Python's truth value of a [str]. *)
Definition truthy (s : str) : bool :=
  match s with [] => false | _ :: _ => true end.

(** ** Regular expressions, as far as [get_video_id] uses them *)

(** Expressions without groups. [Star p] is the greedy star of a
    one-character class, as in [.*]. *)
Inductive regex :=
| Lit (s : str)
| Class (p : char -> bool)
| Alt (r1 r2 : regex)
| Cat (r1 r2 : regex)
| Rep (n : nat) (r : regex)
| Star (p : char -> bool).

Fixpoint star_run (p : char -> bool) (s : str) : list str :=
  match s with
  | c :: s' => if p c then star_run p s' ++ [s] else [s]
  | [] => [[]]
  end.

(** All the ways [r] matches a prefix of [s], as the remaining inputs, in
    the order a backtracking matcher tries them. *)
Fixpoint run (r : regex) (s : str) : list str :=
  match r with
  | Lit l => if startswith l s then [drop (length l) s] else []
  | Class p => match s with c :: s' => if p c then [s'] else [] | [] => [] end
  | Alt r1 r2 => run r1 s ++ run r2 s
  | Cat r1 r2 => s1 ← run r1 s; run r2 s1
  | Rep n r1 => Nat.iter n (fun k s0 => s1 ← run r1 s0; k s1) (fun s0 => [s0]) s
  | Star p => star_run p s
  end.

(** A pattern with one capture group: [before(group)after]. *)
Record pattern := Pattern {
  p_before : regex;
  p_group : regex;
  p_after : regex
}.

(** A match: the text of group 1 and the input after the match. *)
Record rmatch := Match { group1 : str; m_rest : str }.

(** The matches of a pattern anchored at the start of [s], in order. *)
Definition match_at (p : pattern) (s : str) : list rmatch :=
  s1 ← run (p_before p) s;
  s2 ← run (p_group p) s1;
  s3 ← run (p_after p) s2;
  [Match (take (length s1 - length s2)%nat s1) s3].

(** [re.search(p, s)]: the first match at the leftmost position that has
    one. *)
Fixpoint re_search (p : pattern) (s : str) : option rmatch :=
  match head (match_at p s) with
  | Some m => Some m
  | None => match s with [] => None | _ :: s' => re_search p s' end
  end.

(** ** The Video Source Resolver *)

(** [[0-9A-Za-z_-]] *)
Definition id_char (c : char) : bool :=
  ((48 <=? c) && (c <=? 57)) || ((65 <=? c) && (c <=? 90))
  || ((97 <=? c) && (c <=? 122)) || (c =? 95) || (c =? 45).

(** [.] : any character but a newline. *)
Definition dot (c : char) : bool := negb (c =? nl).

(** [(?:v=|/)([0-9A-Za-z_-]{11}).*] *)
Definition pattern_v : pattern :=
  Pattern (Alt (Lit (py "v=")) (Lit (py "/"))) (Rep 11 (Class id_char)) (Star dot).

(** [youtu\.be/([0-9A-Za-z_-]{11})] *)
Definition pattern_short : pattern :=
  Pattern (Lit (py "youtu.be/")) (Rep 11 (Class id_char)) (Lit []).

Definition patterns : list pattern := [pattern_v; pattern_short].

Fixpoint first_match (ps : list pattern) (url : str) : option str :=
  match ps with
  | [] => None
  | p :: ps' =>
      match re_search p url with
      | Some m => Some (group1 m)
      | None => first_match ps' url
      end
  end.

Definition invalid_url_error : exn :=
  mk_exn ValueError (py "Invalid YouTube URL format").

(** [TranscriptFetcher.get_video_id]; it does not use [self]. *)
Definition get_video_id (url : str) : result str :=
  match first_match patterns url with
  | Some id => Ok id
  | None => Raise invalid_url_error
  end.

(** What the first pattern needs at a position, read off the expression:
    [v=] or [/], then eleven identifier characters. *)
Definition id_at (s : str) : bool :=
  (11 <=? length s)%nat && forallb id_char (take 11 s).

Definition marker_at (s : str) : bool :=
  (startswith (py "v=") s && id_at (drop 2 s))
  || (startswith (py "/") s && id_at (drop 1 s)).

(** None of the first [n] positions of [s] has a marker. *)
Fixpoint no_marker_before (n : nat) (s : str) : bool :=
  match n, s with
  | S n', _ :: s' => negb (marker_at s) && no_marker_before n' s'
  | _, _ => true
  end.

Definition is_video_id (id : str) : bool :=
  (length id =? 11)%nat && forallb id_char id.


(** Group 1 of the first pattern's match anchored at the start of [s], read
    off the expression; [re_search_v] below proves that the matcher computes
    it. *)
Definition group_at (s : str) : option str :=
  if startswith (py "v=") s && id_at (drop 2 s) then Some (take 11 (drop 2 s))
  else if startswith (py "/") s && id_at (drop 1 s) then Some (take 11 (drop 1 s))
  else None.

(** The group at the leftmost position that has one. *)
Fixpoint leftmost_group (s : str) : option str :=
  match group_at s with
  | Some g => Some g
  | None => match s with [] => None | _ :: s' => leftmost_group s' end
  end.

(** ** The caption service (the [youtube_transcript_api] library) *)

(** A caption track: its language code, whether it was generated
    automatically, and what [fetch()] gives (the cue texts, in order). *)
Record Transcript := {
  language_code : str;
  is_generated : bool;
  t_fetch : result (list str)
}.

(** The library's [TranscriptList]: the human-authored tracks and the
    generated tracks of a video, each by language code. *)
Record TranscriptList := {
  tl_video_id : str;
  manually_created_transcripts : gmap str Transcript;
  generated_transcripts : gmap str Transcript
}.

(** The library's [_find_transcript]: for each language code in order, the
    first of the given dictionaries that has it. *)
Fixpoint lookup_dicts (code : str) (dicts : list (gmap str Transcript))
  : option Transcript :=
  match dicts with
  | [] => None
  | d :: ds =>
      match d !! code with
      | Some t => Some t
      | None => lookup_dicts code ds
      end
  end.

Fixpoint _find_transcript (language_codes : list str)
    (dicts : list (gmap str Transcript)) : result Transcript :=
  match language_codes with
  | [] => Raise (mk_exn NoTranscriptFound (py "No transcripts were found for any of the requested language codes"))
  | code :: codes =>
      match lookup_dicts code dicts with
      | Some t => Ok t
      | None => _find_transcript codes dicts
      end
  end.

(** The three finders.  In the library each takes the list of language codes
    as a required positional parameter; a call that leaves it out
    ([args = None]) raises [TypeError], as any Python call does. *)
Definition missing_argument (name : string) : exn :=
  mk_exn TypeError
    (py name ++ py "() missing 1 required positional argument: 'language_codes'").

Definition find_transcript (tl : TranscriptList) (args : option (list str))
  : result Transcript :=
  match args with
  | None => Raise (missing_argument "find_transcript")
  | Some codes =>
      _find_transcript codes
        [manually_created_transcripts tl; generated_transcripts tl]
  end.

Definition find_generated_transcript (tl : TranscriptList)
    (args : option (list str)) : result Transcript :=
  match args with
  | None => Raise (missing_argument "find_generated_transcript")
  | Some codes => _find_transcript codes [generated_transcripts tl]
  end.

Definition find_manually_created_transcript (tl : TranscriptList)
    (args : option (list str)) : result Transcript :=
  match args with
  | None => Raise (missing_argument "find_manually_created_transcript")
  | Some codes => _find_transcript codes [manually_created_transcripts tl]
  end.

(** [TextFormatter().format_transcript]: the cue texts, one per line. *)
Definition format_transcript (cues : list str) : str := join [nl] cues.

(** ** The summarization service (the HTTP library and the remote API) *)

(** The request [summarize_text] posts.  ([temperature], a float, is left
    out.) *)
Record request := {
  r_url : str;
  r_authorization : str;
  r_content_type : str;
  r_model : str;
  r_prompt : str;
  r_max_tokens : N
}.

(** A response: its status, its body text, the message [raise_for_status]
    builds for an error status, and what
    [response.json()['choices'][0]['message']['content']] gives. *)
Record response := {
  status_code : N;
  text : str;
  status_message : str;
  json_content : result str
}.

(** [response.raise_for_status()]: [HTTPError], carrying the response, for
    a 4xx or 5xx status. *)
Definition raise_for_status (r : response) : result unit :=
  if (400 <=? status_code r) && (status_code r <? 600)
  then Raise (Exn HTTPError (status_message r) (Some (Some (text r))))
  else Ok tt.

(** What the remote sides answer: the caption service for a video
    identifier, and the chat-completion endpoint for a request. *)
Record services := {
  list_transcripts : str -> result TranscriptList;
  requests_post : request -> result response
}.

(** The characters [line.strip('• ')] removes at the ends of a line. *)
Definition bullet_or_sp (c : char) : Prop := c = bullet \/ c = sp.

(** The bullet of a line, said without the code: [text] is what is left of
    [line] when the bullet characters and spaces at its two ends are taken
    away ([pre1], [post1], as many as there are), and then the white space
    at the two ends of the rest ([pre2], [post2], as much as there is). *)
Definition is_bullet_of (line text : str) : Prop :=
  exists pre1 pre2 post2 post1,
    line = pre1 ++ pre2 ++ text ++ post2 ++ post1
    /\ Forall bullet_or_sp pre1 /\ Forall bullet_or_sp post1
    /\ (forall c, head (pre2 ++ text ++ post2) = Some c -> ~ bullet_or_sp c)
    /\ (forall c, last (pre2 ++ text ++ post2) = Some c -> ~ bullet_or_sp c)
    /\ Forall (fun c => isspace c = true) pre2
    /\ Forall (fun c => isspace c = true) post2
    /\ (forall c, head text = Some c -> isspace c = false)
    /\ (forall c, last text = Some c -> isspace c = false).

(** An action that changes at most the file at [path], and nothing but the
    file system. *)
Definition touches_only (path : str) (m : M unit) : Prop :=
  forall w, exists r files,
    m w = (r, World (w_env w) files (w_dirs w) (w_stdout w) (w_net_calls w)
              (w_fmt_streams w))
    /\ forall other, other ≠ path -> files !! other = w_files w !! other.

(** [for x in xs: body x] *)
Fixpoint for_each {A} (xs : list A) (body : A -> M unit) : M unit :=
  match xs with
  | [] => mret tt
  | x :: xs' => body x;; for_each xs' body
  end.

(** ** [youtube_transcript_fetcher.py] *)

(** The dictionary [summarize_text] builds has at most the four keys
    ['abstract'], ['key_concepts'], ['category'] and ['summary'], each with
    one type of value: a record of optional fields.  A key that was never
    assigned is [None]. *)
Record analysis := {
  abstract : option str;
  key_concepts : option (list str);
  category : option str;
  summary : option str
}.

(** [{}] *)
Definition empty_dict : analysis := Build_analysis None None None None.

(** [bool(d)]: a dictionary is true when it has a key. *)
Definition dict_truthy (d : analysis) : bool :=
  bool_decide (is_Some (abstract d)) || bool_decide (is_Some (key_concepts d))
  || bool_decide (is_Some (category d)) || bool_decide (is_Some (summary d)).

Definition not_available : str := py "Not available".

(** Whether every text of the record can be encoded. *)
Definition analysis_encodable (d : analysis) : bool :=
  encodable (default [] (abstract d))
  && forallb encodable (default [] (key_concepts d))
  && encodable (default [] (category d))
  && encodable (default [] (summary d)).

Definition credential_error : exn :=
  mk_exn ValueError (py "DEEPSEEK_API_KEY not found in .env file").

Module TranscriptFetcher.

Record t := { output_dir : str; deepseek_api_key : str }.

Definition __init__ (output_dir : str) : M t :=
  mkdir output_dir;;
  key ← getenv "DEEPSEEK_API_KEY";
  match key with
  | Some k =>
      if truthy k then mret {| output_dir := output_dir; deepseek_api_key := k |}
      else raise credential_error
  | None => raise credential_error
  end.

Definition preferred_languages : list str :=
  [py "en"; py "ar"; py "es"; py "fr"; py "de"; py "it"].

(** The nested [try]/[except:] of [fetch_transcript]: each finder is called
    as the source calls it, the first two without an argument. *)
Definition select_transcript (transcript_list : TranscriptList)
  : result Transcript :=
  match find_manually_created_transcript transcript_list None with
  | Ok transcript => Ok transcript
  | Raise _ =>
      match find_generated_transcript transcript_list None with
      | Ok transcript => Ok transcript
      | Raise _ => find_transcript transcript_list (Some preferred_languages)
      end
  end.

Definition fetch_transcript (svc : services) (self : t) (url : str)
    (output_path : option str) : M (option (str * str)) :=
  try_except
    (video_id ← lift (get_video_id url);
     print (py "Fetching transcript for video ID: " ++ video_id);;
     transcript_list ← net (list_transcripts svc video_id);
     transcript ← lift (select_transcript transcript_list);
     transcript_data ← net (t_fetch transcript);
     let language := language_code transcript in
     let formatted_transcript := format_transcript transcript_data in
     match output_path with
     | Some path =>
         write_text path
           (py "Language: " ++ language ++ [nl; nl] ++ formatted_transcript);;
         print (py "Transcript saved to: " ++ path)
     | None => mret tt
     end;;
     mret (Some (formatted_transcript, language)))
    (fun e =>
       print (py "Error fetching transcript: " ++ exn_msg e);;
       print (nl :: py "Troubleshooting steps:");;
       print (py "1. Check if the video has closed captions available");;
       print (py "2. Check if the video is available in your region");;
       print (py "3. Try using a different video URL");;
       mret None).

Definition prompt (text language : str) : str :=
  join [nl]
    [ py "Please analyze the following transcript in " ++ language ++ py " and provide:";
      py "1. A brief abstract (2-3 sentences)";
      py "2. Key concepts (bullet points)";
      py "3. Category of the topic";
      py "4. A detailed summary (4-5 paragraphs)";
      [];
      py "Please provide the analysis in the same language as the transcript (" ++ language ++ py ").";
      [];
      py "Format your response exactly like this:";
      py "ABSTRACT:";
      py "(your abstract here)";
      [];
      py "KEY CONCEPTS:";
      bullet :: py " (concept 1)";
      bullet :: py " (concept 2)";
      py "...";
      [];
      py "CATEGORY:";
      py "(category here)";
      [];
      py "SUMMARY:";
      py "(your detailed summary here)";
      [];
      py "Transcript:";
      text;
      [] ].

(** The list comprehension of the key-concepts branch. *)
Definition concepts_of (section : str) : list str :=
  map (fun line => strip (strip_chars [bullet; sp] line))
      (List.filter (fun line => truthy (strip line)) (tail (split [nl] section))).

(** The body of [for section in sections]. *)
Definition parse_section (response_dict : analysis) (section : str) : analysis :=
  if startswith (py "ABSTRACT:") section then
    {| abstract := Some (strip (replace (py "ABSTRACT:") [] section));
       key_concepts := key_concepts response_dict;
       category := category response_dict;
       summary := summary response_dict |}
  else if startswith (py "KEY CONCEPTS:") section then
    {| abstract := abstract response_dict;
       key_concepts := Some (concepts_of section);
       category := category response_dict;
       summary := summary response_dict |}
  else if startswith (py "CATEGORY:") section then
    {| abstract := abstract response_dict;
       key_concepts := key_concepts response_dict;
       category := Some (strip (replace (py "CATEGORY:") [] section));
       summary := summary response_dict |}
  else if startswith (py "SUMMARY:") section then
    {| abstract := abstract response_dict;
       key_concepts := key_concepts response_dict;
       category := category response_dict;
       summary := Some (strip (replace (py "SUMMARY:") [] section)) |}
  else response_dict.

(** From [content.split] to [return response_dict]. *)
Definition parse_reply (content : str) : analysis :=
  foldl parse_section empty_dict (split [nl; nl] content).

(** The [headers] and [data] of [summarize_text], as one request. *)
Definition data (self : t) (text language : str) : request :=
  {| r_url := py "https://api.deepseek.com/v1/chat/completions";
     r_authorization := py "Bearer " ++ deepseek_api_key self;
     r_content_type := py "application/json";
     r_model := py "deepseek-chat";
     r_prompt := prompt text language;
     r_max_tokens := 4000 |}.

Definition summarize_text (svc : services) (self : t) (text language : str)
  : M (option analysis) :=
  try_except
    (response ← net (requests_post svc (data self text language));
     lift (raise_for_status response);;
     content ← lift (json_content response);
     mret (Some (parse_reply content)))
    (fun e =>
       print (py "Error in summarization: " ++ exn_msg e);;
       match exn_response e with
       | Some (Some body) => print (py "API Response: " ++ body)
       | Some None =>
           raise (mk_exn AttributeError
                    (py "'NoneType' object has no attribute 'text'"))
       | None => mret tt
       end;;
       mret None).

(** What [process_transcript] writes to the analysis file when every write
    succeeds. *)
Definition analysis_text (language : str) (summary_data : analysis) : str :=
  py "=== TRANSCRIPT ANALYSIS (Language: " ++ language ++ py ") ===" ++ [nl; nl]
  ++ py "ABSTRACT:" ++ [nl]
  ++ default not_available (abstract summary_data)
  ++ [nl; nl] ++ py "KEY CONCEPTS:" ++ [nl]
  ++ concat (map (fun concept => bullet :: sp :: concept ++ [nl])
                 (default [] (key_concepts summary_data)))
  ++ [nl] ++ py "CATEGORY:" ++ [nl]
  ++ default not_available (category summary_data) ++ [nl]
  ++ [nl] ++ py "DETAILED SUMMARY:" ++ [nl]
  ++ default not_available (summary summary_data).

(** The [with open(summary_path, "w", encoding="utf-8") as f] block of
    [process_transcript], write by write. *)
Definition write_analysis (summary_path language : str)
    (summary_data : analysis) : M unit :=
  open_w summary_path;;
  f_write summary_path
    (py "=== TRANSCRIPT ANALYSIS (Language: " ++ language
     ++ py ") ===" ++ [nl; nl]);;
  f_write summary_path (py "ABSTRACT:" ++ [nl]);;
  f_write summary_path (default not_available (abstract summary_data));;
  f_write summary_path ([nl; nl] ++ py "KEY CONCEPTS:" ++ [nl]);;
  for_each (default [] (key_concepts summary_data))
    (fun concept => f_write summary_path (bullet :: sp :: concept ++ [nl]));;
  f_write summary_path
    ([nl] ++ py "CATEGORY:" ++ [nl]
     ++ default not_available (category summary_data) ++ [nl]);;
  f_write summary_path ([nl] ++ py "DETAILED SUMMARY:" ++ [nl]);;
  f_write summary_path (default not_available (summary summary_data)).

Definition process_transcript (svc : services) (self : t)
    (transcript_data : str * str) (summary_path : str) : M unit :=
  let '(transcript, language) := transcript_data in
  print (nl :: py "Detected language: " ++ language);;
  print (nl :: py "Generating summary using Deepseek AI...");;
  summary_data ← summarize_text svc self transcript language;
  match summary_data with
  | Some d =>
      if dict_truthy d then
        try_except
          (write_analysis summary_path language d;;
           print (nl :: py "Analysis Results:");;
           print (nl :: py "Abstract:");;
           print (default not_available (abstract d));;
           print (nl :: py "Key Concepts:");;
           for_each (default [] (key_concepts d))
             (fun concept => print (bullet :: sp :: concept));;
           print (nl :: py "Category: " ++ default not_available (category d));;
           print (nl :: py "Detailed summary has been saved to the output file."))
          (fun e => print (py "Error saving summary: " ++ exn_msg e))
      else print (py "Failed to generate summary.")
  | None => print (py "Failed to generate summary.")
  end.

Definition main (svc : services) : M unit :=
  try_except
    (contents ← read_file (py "url.txt");
     let url := strip contents in
     if truthy url then
       print (py "Processing URL: " ++ url);;
       fetcher ← __init__ (py "transcripts");
       video_id ← lift (get_video_id url);
       let transcript_path :=
         path_join (output_dir fetcher) (video_id ++ py "_transcript.txt") in
       let summary_path :=
         path_join (output_dir fetcher) (video_id ++ py "_analysis.txt") in
       transcript_data ← fetch_transcript svc fetcher url (Some transcript_path);
       match transcript_data with
       | Some td =>
           print (nl :: py "Transcript fetching completed successfully!");;
           process_transcript svc fetcher td summary_path
       | None => mret tt
       end
     else print (py "Error: url.txt is empty"))
    (fun e =>
       match exn_cls e with
       | FileNotFoundError =>
           print (py "Error: url.txt file not found. Please create a url.txt file with the YouTube URL.")
       | _ => print (py "An error occurred: " ++ exn_msg e)
       end).

End TranscriptFetcher.

(** ** The video platform (the [pytube] library) and the transcoder *)

(** [Stream.includes_audio_track], [Stream.includes_video_track] *)
Definition includes_audio_track (s : Stream) : bool :=
  is_progressive s || s_audio_type s.
Definition includes_video_track (s : Stream) : bool :=
  is_progressive s || negb (s_audio_type s).

(** [StreamQuery.filter(only_audio=True)], [.filter(progressive=True)] *)
Definition only_audio (s : Stream) : bool :=
  includes_audio_track s && negb (includes_video_track s).
Definition filter_only_audio (q : list Stream) : list Stream :=
  List.filter only_audio q.
Definition filter_progressive (q : list Stream) : list Stream :=
  List.filter is_progressive q.

(** [sorted(..., key=...)]: stable, ascending. *)
Fixpoint insert_by {A} (key : A -> N) (x : A) (l : list A) : list A :=
  match l with
  | [] => [x]
  | y :: l' => if key x <=? key y then x :: l else y :: insert_by key x l'
  end.

Fixpoint sorted_by {A} (key : A -> N) (l : list A) : list A :=
  match l with
  | [] => []
  | x :: l' => insert_by key x (sorted_by key l')
  end.

(** [StreamQuery.order_by(attr)]: the streams that have the attribute,
    sorted on its number. *)
Definition order_by (attr : Stream -> option N) (q : list Stream) : list Stream :=
  sorted_by (fun s => default 0 (attr s))
            (List.filter (fun s => bool_decide (is_Some (attr s))) q).

(** [StreamQuery.desc()], [StreamQuery.first()] *)
Definition desc (q : list Stream) : list Stream := rev q.
Definition first (q : list Stream) : option Stream := head q.

(** What the platform and the transcoder answer: the constructor
    [YouTube(url, ...)], the stream list on the [n]-th network call, and the
    transcoder on the content of its input file: its converted output, or
    the diagnostic text of [ffmpeg.Error] with what the failed run has left
    at the output path, if anything. *)
Record platform := {
  yt_construct : str -> result unit;
  yt_fetch : nat -> result (list Stream);
  ffmpeg_run : str -> str + str * option str
}.

(** [yt = YouTube(url, ...)]: a new object, with no stream list yet. *)
Definition new_YouTube (pf : platform) (url : str) : M unit := fun w =>
  match yt_construct pf url with
  | Ok _ =>
      (Ok tt, World (w_env w) (w_files w) (w_dirs w) (w_stdout w)
                    (w_net_calls w) None)
  | Raise e => (Raise e, w)
  end.

(** The property [yt.streams]: fetched over the network until it succeeds
    once, then kept. *)
Definition streams (pf : platform) : M (list Stream) := fun w =>
  match w_fmt_streams w with
  | Some q => (Ok q, w)
  | None =>
      match yt_fetch pf (w_net_calls w) with
      | Ok q =>
          (Ok q, World (w_env w) (w_files w) (w_dirs w) (w_stdout w)
                       (S (w_net_calls w)) (Some q))
      | Raise e =>
          (Raise e, World (w_env w) (w_files w) (w_dirs w) (w_stdout w)
                          (S (w_net_calls w)) None)
      end
  end.

(** A [pathlib.Path] with its final suffix apart, for a file name that has
    a stem: [pathlib] takes a name such as [.mp4] to have no suffix at
    all. *)
Record Path := { p_parent : str; p_stem : str; p_suffix : str }.

Definition path_str (p : Path) : str :=
  path_join (p_parent p) (p_stem p ++ p_suffix p).

Definition with_suffix (p : Path) (suffix : str) : Path :=
  {| p_parent := p_parent p; p_stem := p_stem p; p_suffix := suffix |}.

(** [stream.download(output_path=dir)] when the stream is fetched anew.
    The path is kept as [dir / name], the way the file is named from the
    working directory; [pytube] hands it back made absolute.  What a
    download that fails may have left on disk is not modelled. *)
Definition download (s : Stream) (dir : str) : M Path :=
  content ← net (s_download s);
  let p := {| p_parent := dir; p_stem := default_stem s; p_suffix := default_suffix s |} in
  write_file (path_str p) content;;
  mret p.

(** ** [youtube_transcriber.py] *)

Module VideoDownloader.

Record t := { output_dir : str }.

Definition __init__ (output_dir : str) : M t :=
  mkdir output_dir;;
  mret {| output_dir := output_dir |}.

Definition _convert_to_wav (pf : platform) (input_path output_path : Path)
  : M unit :=
  input ← read_file (path_str input_path);
  match ffmpeg_run pf input with
  | inl wav => write_file (path_str output_path) wav
  | inr (stderr, leftover) =>
      match leftover with
      | Some partial => write_file (path_str output_path) partial
      | None => mret tt
      end;;
      print (py "Error converting audio: " ++ stderr);;
      raise (mk_exn FfmpegError (py "ffmpeg error (see stderr output for detail)"))
  end.

(** The inner [try] of [download_audio]: the value of [audio_stream] after
    it. *)
Definition select_stream (pf : platform) : M (option Stream) :=
  try_except
    (q ← streams pf;
     let audio_stream := first (desc (order_by abr (filter_only_audio q))) in
     audio_stream ←
       match audio_stream with
       | Some s => mret (Some s)
       | None => q ← streams pf; mret (first (filter_only_audio q))
       end;
     match audio_stream with
     | Some s => mret (Some s)
     | None =>
         q ← streams pf;
         mret (first (order_by resolution (filter_progressive q)))
     end)
    (fun stream_error =>
       print (py "Stream selection error: " ++ exn_msg stream_error);;
       q ← streams pf;
       mret (first q)).

Definition no_stream_error : exn :=
  mk_exn ValueError (py "No suitable audio stream found").

(** The outer [try] block of [download_audio]. *)
Definition download_audio_body (pf : platform) (self : t) (url : str)
  : M (option Path) :=
  new_YouTube pf url;;
  audio_stream ← select_stream pf;
  match audio_stream with
  | None => raise no_stream_error
  | Some s =>
      print (py "Downloading audio using stream: " ++ str_of_int (itag s));;
      downloaded_path ← download s (output_dir self);
      let wav_path := with_suffix downloaded_path (py ".wav") in
      print (py "Converting audio format...");;
      _convert_to_wav pf downloaded_path wav_path;;
      unlink (path_str downloaded_path);;
      mret (Some wav_path)
  end.

(** Its [except Exception as e] handler. *)
Definition download_audio_except (e : exn) : M (option Path) :=
  print (py "Error downloading/converting video: " ++ exn_msg e);;
  (if contains (py "HTTP Error 400") (exn_msg e) then
     print (py "This might be due to regional restrictions or age verification requirements.")
   else if contains (py "HTTP Error 403") (exn_msg e) then
     print (py "Access forbidden. This might be due to YouTube's security measures.")
   else mret tt);;
  print (nl :: py "Troubleshooting steps:");;
  print (py "1. Try updating pytube: pip install --upgrade pytube");;
  print (py "2. Check if the video is available in your region");;
  print (py "3. Check if the video requires age verification");;
  print (py "4. Try using a different video URL");;
  mret None.

Definition download_audio (pf : platform) (self : t) (url : str)
  : M (option Path) :=
  try_except (download_audio_body pf self url) download_audio_except.

End VideoDownloader.

(** ** The speech-to-text engine (the [whisper] library) *)

(** What the engine answers: [whisper.load_model(size)] (which may fetch the
    weights, and is counted as a network call), and
    [model.transcribe(path)["text"]] for a model size and the content of the
    audio file ([None] when there is no such file). *)
Record engine := {
  load_model : str -> result unit;
  model_transcribe : str -> option str -> result str
}.

(** The content of the file at [path], if there is one. *)
Definition file_content (path : str) : M (option str) := fun w =>
  (Ok (w_files w !! path), w).

Module Transcriber.

Record t := { model : str }.

Definition __init__ (eng : engine) (model_size : str) : M t :=
net (load_model eng model_size);;
mret {| model := model_size |}.

Definition transcribe (eng : engine) (self : t) (audio_path : Path)
  (output_path : option Path) : M (option str) :=
try_except
  (print (nl :: py "Transcribing audio...");;
   audio ← file_content (path_str audio_path);
   transcript ← lift (model_transcribe eng (model self) audio);
   match output_path with
   | Some path =>
       write_text_in (p_parent path) (path_str path) transcript;;
       print (py "Transcript saved to: " ++ path_str path)
   | None => mret tt
   end;;
   mret (Some transcript))
  (fun e =>
     print (py "Error transcribing audio: " ++ exn_msg e);;
     mret None).

(** [transcript[:500] + "..." if len(transcript) > 500 else transcript] *)
Definition preview (transcript : str) : str :=
if (500 <? length transcript)%nat then take 500 transcript ++ py "..."
else transcript.

(** [main] of [youtube_transcriber.py]. *)
Definition main (pf : platform) (eng : engine) : M unit :=
try_except
  (contents ← read_file (py "url.txt");
   let url := strip contents in
   if truthy url then
     print (py "Processing URL: " ++ url);;
     downloader ← VideoDownloader.__init__ (py "downloads");
     transcriber ← __init__ eng (py "base");
     audio_path ← VideoDownloader.download_audio pf downloader url;
     match audio_path with
     | None => mret tt
     | Some audio_path =>
         let transcript_path := with_suffix audio_path (py ".txt") in
         transcript ← transcribe eng transcriber audio_path (Some transcript_path);
         match transcript with
         | Some transcript =>
             if truthy transcript then
               print (nl :: py "Transcription completed successfully!");;
               print (nl :: py "Transcript preview:");;
               print (preview transcript)
             else mret tt
         | None => mret tt
         end
     end
   else print (py "Error: url.txt is empty"))
  (fun e =>
     match exn_cls e with
     | FileNotFoundError =>
         print (py "Error: url.txt file not found. Please create a url.txt file with the YouTube URL.")
     | _ => print (py "An error occurred: " ++ exn_msg e)
     end).

End Transcriber.

(** * Properties *)

Example get_video_id_watch :
  get_video_id (py "https://www.youtube.com/watch?v=dQw4w9WgXcQ&t=10s")
  = Ok (py "dQw4w9WgXcQ").
Proof. vm_compute. reflexivity. Qed.

Section RegexFacts.

Lemma startswith_spec (p s : str) :
  startswith p s = true -> s = p ++ drop (length p) s.
Proof.
  revert s. induction p as [|c p IH]; intros [|d s]; simpl; try done.
  intros [->%N.eqb_eq H]%andb_prop. f_equal. by apply IH.
Qed.

Lemma run_rep_S (n : nat) (r : regex) (s : str) :
  run (Rep (S n) r) s = s1 ← run r s; run (Rep n r) s1.
Proof. reflexivity. Qed.

Lemma run_rep_class (p : char -> bool) (n : nat) (s : str) :
  run (Rep n (Class p)) s =
  if (n <=? length s)%nat && forallb p (take n s) then [drop n s] else [].
Proof.
  revert s. induction n as [|n IH]; intros s.
  - by destruct s.
  - rewrite run_rep_S. destruct s as [|c s]; [done|].
    change (run (Class p) (c :: s)) with (if p c then [s] else []).
    cbn [take forallb length drop Nat.leb]. destruct (p c).
    + cbn [mbind list_bind]. by rewrite app_nil_r, IH.
    + by rewrite andb_false_r.
Qed.

Lemma star_run_head (p : char -> bool) (s : str) :
  is_Some (head (star_run p s)).
Proof.
  induction s as [|c s [x Hx]]; simpl; [by eexists|].
  destruct (p c); [|by eexists].
  destruct (star_run p s); [done|]. by eexists.
Qed.

Lemma group_at_marker (s : str) : is_Some (group_at s) <-> marker_at s = true.
Proof.
  unfold group_at, marker_at.
  destruct (startswith (py "v=") s && id_at (drop 2 s)); cbn [orb].
  - split; [done | by eexists].
  - destruct (startswith (py "/") s && id_at (drop 1 s)); cbn [orb].
    + split; [done | by eexists].
    + split; [by intros [? ?] | done].
Qed.

Lemma group_at_None (s : str) : marker_at s = false -> group_at s = None.
Proof.
  intros H. destruct (group_at s) eqn:E; [|done].
  assert (marker_at s = true) by (apply group_at_marker; eauto). congruence.
Qed.

Lemma tail_after_id (s1 : str) :
  id_at s1 = true ->
  head (s2 ← run (Rep 11 (Class id_char)) s1;
        s3 ← run (Star dot) s2;
        [Match (take (length s1 - length s2)%nat s1) s3])
  = Some (Match (take 11 s1)
                (default [] (head (star_run dot (drop 11 s1))))).
Proof.
  intros H. rewrite run_rep_class. fold (id_at s1). rewrite H.
  cbn [mbind list_bind run]. rewrite app_nil_r.
  destruct (star_run_head dot (drop 11 s1)) as [s3 Hs3].
  rewrite Hs3. cbn [default].
  destruct (star_run dot (drop 11 s1)) as [|x l]; [done|].
  simplify_eq/=. do 3 f_equal. rewrite length_drop.
  apply andb_prop in H as [H%Nat.leb_le _]. lia.
Qed.

Lemma tail_no_id (s1 : str) :
  id_at s1 = false ->
  (s2 ← run (Rep 11 (Class id_char)) s1;
   s3 ← run (Star dot) s2;
   [Match (take (length s1 - length s2)%nat s1) s3]) = [].
Proof. intros H. rewrite run_rep_class. fold (id_at s1). by rewrite H. Qed.

Lemma run_alt_lit (a b s : str) :
  run (Alt (Lit a) (Lit b)) s
  = (if startswith a s then [drop (length a) s] else [])
    ++ (if startswith b s then [drop (length b) s] else []).
Proof. reflexivity. Qed.

Lemma match_at_v_group (s : str) :
  group1 <$> head (match_at pattern_v s) = group_at s.
Proof.
  unfold match_at, group_at, pattern_v. cbn [p_before p_group p_after].
  rewrite run_alt_lit. change (length (py "v=")) with 2%nat.
  change (length (py "/")) with 1%nat.
  destruct (startswith (py "v=") s) eqn:Hv.
  - assert (startswith (py "/") s = false) as ->.
    { destruct s as [|c s]; [done|]. simpl in *.
      apply andb_prop in Hv as [->%N.eqb_eq _]. done. }
    rewrite app_nil_r. cbn [mbind list_bind andb]. rewrite app_nil_r.
    destruct (id_at (drop 2 s)) eqn:Hid.
    + by rewrite tail_after_id.
    + by rewrite tail_no_id.
  - cbn [app andb]. destruct (startswith (py "/") s) eqn:Hs; cbn [andb].
    + cbn [mbind list_bind]. rewrite app_nil_r.
      destruct (id_at (drop 1 s)) eqn:Hid.
      * by rewrite tail_after_id.
      * by rewrite tail_no_id.
    + done.
Qed.

Lemma re_search_v (s : str) :
  group1 <$> re_search pattern_v s = leftmost_group s.
Proof.
  induction s as [|c s IH]; cbn [re_search leftmost_group];
    rewrite <- match_at_v_group;
    destruct (head (match_at pattern_v _)); done.
Qed.

Lemma get_video_id_leftmost (url : str) :
  get_video_id url =
  match leftmost_group url with
  | Some id => Ok id
  | None =>
      match re_search pattern_short url with
      | Some m => Ok (group1 m)
      | None => Raise invalid_url_error
      end
  end.
Proof.
  unfold get_video_id, patterns. cbn [first_match].
  rewrite <- re_search_v. destruct (re_search pattern_v url); cbn; [done|].
  by destruct (re_search pattern_short url).
Qed.

Lemma no_marker_before_S (n : nat) (c : char) (s : str) :
  no_marker_before (S n) (c :: s)
  = negb (marker_at (c :: s)) && no_marker_before n s.
Proof. reflexivity. Qed.

Lemma leftmost_group_cons (c : char) (s : str) :
  leftmost_group (c :: s)
  = match group_at (c :: s) with
    | Some g => Some g
    | None => leftmost_group s
    end.
Proof. reflexivity. Qed.

Lemma leftmost_group_skip (pre t : str) :
  no_marker_before (length pre) (pre ++ t) = true ->
  leftmost_group (pre ++ t) = leftmost_group t.
Proof.
  induction pre as [|c pre IH]; [done|].
  change ((c :: pre) ++ t) with (c :: (pre ++ t)).
  change (length (c :: pre)) with (S (length pre)).
  rewrite no_marker_before_S. intros [Hc Hpre]%andb_prop.
  apply negb_true_iff in Hc.
  rewrite leftmost_group_cons, (group_at_None _ Hc). by apply IH.
Qed.

Lemma leftmost_group_here (t : str) (g : str) :
  group_at t = Some g -> leftmost_group t = Some g.
Proof. intros H. destruct t; cbn [leftmost_group]; by rewrite H. Qed.

Lemma group_at_is_id (s g : str) :
  group_at s = Some g -> is_video_id g = true.
Proof.
  unfold group_at, id_at, is_video_id. intros H.
  repeat case_match; simplify_eq;
    match goal with
    | E : _ && (_ && _) = true |- _ =>
        apply andb_prop in E as [_ [Hl%Nat.leb_le Hf]%andb_prop]
    end;
    rewrite Hf, length_take, andb_true_r; apply Nat.eqb_eq; lia.
Qed.

Lemma leftmost_group_find (pre t : str) :
  marker_at t = true ->
  exists g, leftmost_group (pre ++ t) = Some g /\ is_video_id g = true.
Proof.
  intros Ht. induction pre as [|c pre IH].
  - apply group_at_marker in Ht as [g Hg]. exists g.
    split; [by apply leftmost_group_here | by eapply group_at_is_id].
  - change ((c :: pre) ++ t) with (c :: (pre ++ t)).
    rewrite leftmost_group_cons.
    destruct (group_at (c :: pre ++ t)) as [g|] eqn:E; [|exact IH].
    exists g. split; [done | by eapply group_at_is_id].
Qed.

End RegexFacts.

(** ** The Video Source Resolver *)

Section Resolver.

Lemma no_marker_before_app (pre t : str) (n : nat) :
  no_marker_before (length pre) (pre ++ t) = true ->
  no_marker_before n t = true ->
  no_marker_before (length pre + n) (pre ++ t) = true.
Proof.
  induction pre as [|c pre IH]; [done|].
  change ((c :: pre) ++ t) with (c :: (pre ++ t)).
  change (length (c :: pre) + n)%nat with (S (length pre + n)).
  change (length (c :: pre)) with (S (length pre)).
  rewrite !no_marker_before_S.
  intros [-> Hpre]%andb_prop Ht. by apply IH.
Qed.

Lemma group_at_v (id post : str) :
  is_video_id id = true -> group_at (py "v=" ++ id ++ post) = Some id.
Proof.
  intros [Hl%Nat.eqb_eq Hf]%andb_prop. unfold group_at, id_at.
  change (drop 2 (py "v=" ++ id ++ post)) with (id ++ post).
  change (startswith (py "v=") (py "v=" ++ id ++ post)) with true.
  rewrite take_app_length' by done. rewrite Hf, length_app, Hl. done.
Qed.

Lemma group_at_slash (id post : str) :
  is_video_id id = true -> group_at (py "/" ++ id ++ post) = Some id.
Proof.
  intros [Hl%Nat.eqb_eq Hf]%andb_prop. unfold group_at, id_at.
  change (drop 1 (py "/" ++ id ++ post)) with (id ++ post).
  change (startswith (py "v=") (py "/" ++ id ++ post)) with false.
  change (startswith (py "/") (py "/" ++ id ++ post)) with true.
  rewrite take_app_length' by done. rewrite Hf, length_app, Hl. done.
Qed.

Lemma get_video_id_at (pre t id : str) :
  no_marker_before (length pre) (pre ++ t) = true ->
  group_at t = Some id ->
  get_video_id (pre ++ t) = Ok id.
Proof.
  intros Hpre Hg. rewrite get_video_id_leftmost, leftmost_group_skip by done.
  by rewrite (leftmost_group_here _ _ Hg).
Qed.

End Resolver.

Section ResolverMore.

Lemma leftmost_group_is_id (url g : str) :
leftmost_group url = Some g -> is_video_id g = true.
Proof.
induction url as [|c url IH].
- intros H. vm_compute in H. discriminate H.
- rewrite leftmost_group_cons.
  destruct (group_at (c :: url)) eqn:E; [|exact IH].
  intros [= <-]. by eapply group_at_is_id.
Qed.

Lemma leftmost_group_None (url : str) :
leftmost_group url = None <-> no_marker_before (length url) url = true.
Proof.
induction url as [|c url IH].
- cbn. split; [done|]. intros _. reflexivity.
- rewrite leftmost_group_cons. cbn [length]. rewrite no_marker_before_S.
  destruct (marker_at (c :: url)) eqn:Hm.
  + apply group_at_marker in Hm as [g ->]. cbn. split; done.
  + rewrite (group_at_None _ Hm). cbn [negb andb]. exact IH.
Qed.

(** A match of the second pattern at the start of [s] puts a marker of the
  first pattern eight characters further. *)
Lemma match_at_short_marker (s : str) :
match_at pattern_short s ≠ [] -> marker_at (drop 8 s) = true.
Proof.
unfold match_at, pattern_short. cbn [p_before p_group p_after].
change (run (Lit (py "youtu.be/")) s)
  with (if startswith (py "youtu.be/") s then [drop 9 s] else []).
destruct (startswith (py "youtu.be/") s) eqn:Hs; [|done].
cbn [mbind list_bind]. rewrite app_nil_r, run_rep_class.
fold (id_at (drop 9 s)). destruct (id_at (drop 9 s)) eqn:Hid; [|done].
intros _. apply startswith_spec in Hs. rewrite Hs.
change (length (py "youtu.be/")) with 9%nat in *.
change (drop 8 (py "youtu.be/" ++ drop 9 s)) with (py "/" ++ drop 9 s).
unfold marker_at. change (drop 1 (py "/" ++ drop 9 s)) with (drop 9 s).
rewrite Hid. reflexivity.
Qed.

Lemma re_search_short_marker (url : str) (m : rmatch) :
re_search pattern_short url = Some m -> is_Some (leftmost_group url).
Proof.
induction url as [|c url IH]; cbn [re_search].
- destruct (head (match_at pattern_short [])) eqn:E; [|done]. intros _.
  assert (marker_at (drop 8 []) = true) as Hm
    by (apply match_at_short_marker; by destruct (match_at pattern_short [])).
  done.
- destruct (head (match_at pattern_short (c :: url))) eqn:E.
  + intros _.
    assert (marker_at (drop 8 (c :: url)) = true) as Hm.
    { apply match_at_short_marker.
      by destruct (match_at pattern_short (c :: url)). }
    destruct (leftmost_group_find (take 8 (c :: url)) _ Hm) as (g & Hg & _).
    rewrite take_drop in Hg. by eexists.
  + intros [g Hg]%IH. rewrite leftmost_group_cons.
    destruct (group_at (c :: url)); by eexists.
Qed.

Lemma get_video_id_is_id (url id : str) :
get_video_id url = Ok id -> is_video_id id = true.
Proof.
rewrite get_video_id_leftmost.
destruct (leftmost_group url) as [g|] eqn:Hg.
- intros [= <-]. by eapply leftmost_group_is_id.
- destruct (re_search pattern_short url) as [m|] eqn:Hm; [|done].
  apply re_search_short_marker in Hm as [g Hg']. congruence.
Qed.

End ResolverMore.

(** Where the resolver does give the identifier of the URL: a URL made of
    any text, then [v=] or [youtu.be/], then an eleven-character identifier,
    then anything, resolves to that identifier whenever no earlier place of
    the URL has a [/] or [v=] directly followed by eleven identifier
    characters; the two URLs of the specification resolve to
    [dQw4w9WgXcQ]. *)
Theorem get_video_id_canonical (pre id post : str) :
  is_video_id id = true ->
  (no_marker_before (length pre) (pre ++ py "v=" ++ id ++ post) = true ->
   get_video_id (pre ++ py "v=" ++ id ++ post) = Ok id)
  /\ (no_marker_before (length pre) (pre ++ py "youtu.be/" ++ id ++ post) = true ->
      get_video_id (pre ++ py "youtu.be/" ++ id ++ post) = Ok id)
  /\ get_video_id (py "https://www.youtube.com/watch?v=dQw4w9WgXcQ&t=10s")
     = Ok (py "dQw4w9WgXcQ")
  /\ get_video_id (py "https://youtu.be/dQw4w9WgXcQ") = Ok (py "dQw4w9WgXcQ").
Proof.
  intros Hid. repeat split.
  - intros Hpre. apply get_video_id_at; [done | by apply group_at_v].
  - intros Hpre.
    change (pre ++ py "youtu.be/" ++ id ++ post)
      with (pre ++ py "youtu.be" ++ (py "/" ++ id ++ post)).
    rewrite app_assoc. apply get_video_id_at; [|by apply group_at_slash].
    rewrite length_app, <- app_assoc.
    apply no_marker_before_app; [done | reflexivity].
Qed.

Lemma get_video_id_canonical_witness :
  let pre := py "https://m.youtube.com/watch?feature=share&" in
  let id := py "dQw4w9WgXcQ" in
  let post := py "&list=PL1234567890&index=2" in
  is_video_id id = true
  /\ no_marker_before (length pre) (pre ++ py "v=" ++ id ++ post) = true
  /\ get_video_id (pre ++ py "v=" ++ id ++ post) = Ok id.
Proof.
  intros pre id post. split; [reflexivity|]. split; [reflexivity|].
  apply (get_video_id_canonical pre id post); reflexivity.
Defined.

(** C1 does not hold of the code: for the URL
    [https://youtubekids.com/watch?v=dQw4w9WgXcQ], which has the [v=] form,
    [get_video_id] returns [youtubekids], the host name, and for
    [https://www.youtube.com/watch?next=/recommended&v=dQw4w9WgXcQ] it
    returns [recommended], the value of an earlier query parameter; neither
    is the identifier [dQw4w9WgXcQ] the URL carries after [v=], so it is not
    true that every URL of the [v=] form resolves to its identifier. *)
Lemma get_video_id_not_canonical :
  get_video_id (py "https://youtubekids.com/watch?" ++ py "v=" ++ py "dQw4w9WgXcQ" ++ [])
  = Ok (py "youtubekids")
  /\ get_video_id (py "https://www.youtube.com/watch?next=/recommended&" ++ py "v="
                   ++ py "dQw4w9WgXcQ" ++ [])
     = Ok (py "recommended")
  /\ ~ (forall pre id post : str,
          is_video_id id = true ->
          get_video_id (pre ++ py "v=" ++ id ++ post) = Ok id).
Proof.
  split; [reflexivity|]. split; [reflexivity|].
  intros H.
  specialize (H (py "https://youtubekids.com/watch?") (py "dQw4w9WgXcQ") [] eq_refl).
  discriminate H.
Qed.

(** C10: whatever the host, a URL with a [/] or a [v=] directly followed by
    eleven identifier characters resolves to some eleven-character
    identifier instead of failing; [https://example.com/abcdefghijk]
    resolves to [abcdefghijk]. *)
Theorem get_video_id_accepts_foreign_url (pre id post : str) :
  is_video_id id = true ->
  (exists g, get_video_id (pre ++ py "/" ++ id ++ post) = Ok g
             /\ is_video_id g = true)
  /\ (exists g, get_video_id (pre ++ py "v=" ++ id ++ post) = Ok g
                /\ is_video_id g = true)
  /\ get_video_id (py "https://example.com/abcdefghijk") = Ok (py "abcdefghijk").
Proof.
  intros Hid. repeat split.
  - destruct (leftmost_group_find pre (py "/" ++ id ++ post)) as (g & Hg & Hv).
    { apply group_at_marker. rewrite group_at_slash; eauto. }
    exists g. by rewrite get_video_id_leftmost, Hg.
  - destruct (leftmost_group_find pre (py "v=" ++ id ++ post)) as (g & Hg & Hv).
    { apply group_at_marker. rewrite group_at_v; eauto. }
    exists g. by rewrite get_video_id_leftmost, Hg.
Qed.

Lemma get_video_id_accepts_foreign_url_witness :
  is_video_id (py "README_2024") = true
  /\ exists g, get_video_id (py "ftp://files.example.org/pub" ++ py "/"
                             ++ py "README_2024" ++ py ".txt") = Ok g
               /\ is_video_id g = true.
Proof.
  split; [reflexivity|].
  apply (get_video_id_accepts_foreign_url
           (py "ftp://files.example.org/pub") (py "README_2024") (py ".txt")).
  reflexivity.
Defined.

(** ** The Caption Retriever *)

(** C2 fails on the code.  The first two finders are called without their
    argument, so each raises and the selection is the third finder alone:
    with a human-authored Japanese track and a generated English track the
    generated one is selected, and with the human-authored Japanese track
    alone nothing is. *)
Theorem select_transcript_passes_over_manual :
  let ja := {| language_code := py "ja"; is_generated := false;
               t_fetch := Ok [py "konnichiwa"] |} in
  let en := {| language_code := py "en"; is_generated := true;
               t_fetch := Ok [py "hello"] |} in
  TranscriptFetcher.select_transcript
    {| tl_video_id := py "dQw4w9WgXcQ";
       manually_created_transcripts := {[ py "ja" := ja ]};
       generated_transcripts := {[ py "en" := en ]} |} = Ok en
  /\ (exists e,
        TranscriptFetcher.select_transcript
          {| tl_video_id := py "dQw4w9WgXcQ";
             manually_created_transcripts := {[ py "ja" := ja ]};
             generated_transcripts := ∅ |} = Raise e
        /\ exn_cls e = NoTranscriptFound)
  /\ (forall tl,
        TranscriptFetcher.select_transcript tl
        = find_transcript tl (Some TranscriptFetcher.preferred_languages)).
Proof.
  split; [vm_compute; reflexivity|]. split; [|reflexivity].
  eexists. split; [vm_compute; reflexivity | reflexivity].
Qed.

(** ** Running the monad *)

Section Monad.


End Monad.

(** ** The file system *)

Section FileSystem.

Lemma after_slash_app (name rest : str) :
  forallb (fun c => negb (c =? 47)) name = true ->
  after_slash (name ++ 47 :: rest) = Some rest.
Proof.
  induction name as [|c name IH]; [done|].
  cbn [forallb app after_slash]. intros [Hc Hn]%andb_prop.
  apply negb_true_iff in Hc. rewrite Hc. by apply IH.
Qed.

Lemma forallb_rev {A} (f : A -> bool) (l : list A) :
  forallb f (rev l) = forallb f l.
Proof.
  induction l as [|x l IH]; [done|].
  cbn [rev forallb]. rewrite forallb_app, IH. cbn. rewrite andb_true_r.
  apply andb_comm.
Qed.

(** A file name without [/] lies in the directory it is joined to. *)
Lemma dirname_path_join (dir name : str) :
  forallb (fun c => negb (c =? 47)) name = true ->
  dirname (path_join dir name) = dirname (dir ++ [47]).
Proof.
  intros Hname. unfold dirname, path_join. change (py "/") with [47].
  rewrite !rev_app_distr. cbn [rev app]. rewrite <- app_assoc. cbn [app].
  rewrite after_slash_app by (by rewrite forallb_rev).
  cbn [after_slash]. by rewrite N.eqb_refl.
Qed.

Lemma id_no_slash (id : str) :
  is_video_id id = true -> forallb (fun c => negb (c =? 47)) id = true.
Proof.
  unfold is_video_id. intros [_ Hid]%andb_prop.
  apply forallb_forall. intros c Hc.
  rewrite forallb_forall in Hid. specialize (Hid c Hc).
  destruct (N.eqb_spec c 47) as [->|]; [|done]. by vm_compute in Hid.
Qed.

(** The two files of a video lie in [transcripts], which is there once
    [__init__] has made it. *)
Lemma transcripts_file_dir (id suffix : str) (env : gmap string str)
    (files : gmap str str) (dirs : gset str) (out : list str) (n : nat)
    (fs : option (list Stream)) :
  is_video_id id = true ->
  forallb (fun c => negb (c =? 47)) suffix = true ->
  dir_exists (dirname (path_join (py "transcripts") (id ++ suffix)))
    (World env files ({[py "transcripts"]} ∪ dirs) out n fs) = true.
Proof.
  intros Hid Hsuffix. rewrite dirname_path_join.
  - change (dirname (py "transcripts" ++ [47])) with (py "transcripts").
    cbn [py dir_exists w_dirs]. apply orb_true_iff. right.
    apply bool_decide_eq_true_2, elem_of_union_l, elem_of_singleton.
    reflexivity.
  - rewrite forallb_app, Hsuffix, andb_true_r. by apply id_no_slash.
Qed.

Lemma dir_exists_transcripts (w : world) :
  dir_exists (dirname (py "transcripts")) w = true.
Proof. reflexivity. Qed.


(** Writing to an open file adds to what it holds. *)
Lemma f_append_open (path acc s : str) (env : gmap string str)
    (files : gmap str str) (dirs : gset str) (out : list str) (n : nat)
    (fs : option (list Stream)) :
  f_append path s (World env (<[path := acc]> files) dirs out n fs)
  = (Ok tt, World env (<[path := acc ++ s]> files) dirs out n fs).
Proof.
  unfold f_append. cbn [w_env w_files w_dirs w_stdout w_net_calls w_fmt_streams].
  by rewrite lookup_insert_eq, insert_insert_eq.
Qed.

Lemma f_write_open (path acc s : str) (env : gmap string str)
    (files : gmap str str) (dirs : gset str) (out : list str) (n : nat)
    (fs : option (list Stream)) :
  encodable s = true ->
  f_write path s (World env (<[path := acc]> files) dirs out n fs)
  = (Ok tt, World env (<[path := acc ++ s]> files) dirs out n fs).
Proof. intros Hs. unfold f_write. rewrite Hs. apply f_append_open. Qed.

Lemma encodable_app (s1 s2 : str) :
  encodable (s1 ++ s2) = encodable s1 && encodable s2.
Proof. apply forallb_app. Qed.

Lemma for_each_f_write (path : str) (f : str -> str) (l : list str)
    (acc : str) (env : gmap string str) (files : gmap str str)
    (dirs : gset str) (out : list str) (n : nat) (fs : option (list Stream)) :
  forallb (fun x => encodable (f x)) l = true ->
  for_each l (fun x => f_write path (f x))
    (World env (<[path := acc]> files) dirs out n fs)
  = (Ok tt, World env (<[path := acc ++ concat (map f l)]> files) dirs out n fs).
Proof.
  revert acc. induction l as [|x l IH]; intros acc.
  - intros _. cbn. by rewrite app_nil_r.
  - cbn [forallb for_each map concat]. intros [Hx Hl]%andb_prop.
    unfold mbind, M_bind. rewrite f_write_open by done.
    rewrite IH by done. by rewrite <- app_assoc.
Qed.

End FileSystem.

(** ** The Summarization Client: construction *)





(** ** The reply parser *)

Section Parser.

Import TranscriptFetcher.

Lemma startswith_head_ne (a b : char) (p q s : str) :
  a ≠ b -> startswith (a :: p) s = true -> startswith (b :: q) s = false.
Proof.
  intros Hne. destruct s as [|c s]; [done|]. cbn [startswith].
  intros [->%N.eqb_eq _]%andb_prop.
  by apply N.eqb_neq in Hne as ->.
Qed.

(** The four labels start with four different letters, so at most one
    branch of the [if]/[elif] chain applies to a section. *)
Ltac label_cases s :=
  destruct (startswith (py "ABSTRACT:") s) eqn:HA;
  destruct (startswith (py "KEY CONCEPTS:") s) eqn:HK;
  destruct (startswith (py "CATEGORY:") s) eqn:HC;
  destruct (startswith (py "SUMMARY:") s) eqn:HS;
  try reflexivity;
  exfalso;
  repeat match goal with
    | H : startswith (py ?l) s = true, H' : startswith (py ?l') s = true |- _ =>
        assert (startswith (py l') s = false)
          by (revert H; apply startswith_head_ne; discriminate);
        congruence
    end.

Lemma abstract_parse_section (d : analysis) (s : str) :
  abstract (parse_section d s)
  = if startswith (py "ABSTRACT:") s
    then Some (strip (replace (py "ABSTRACT:") [] s)) else abstract d.
Proof. unfold parse_section. label_cases s. Qed.

Lemma key_concepts_parse_section (d : analysis) (s : str) :
  key_concepts (parse_section d s)
  = if startswith (py "KEY CONCEPTS:") s
    then Some (concepts_of s) else key_concepts d.
Proof. unfold parse_section. label_cases s. Qed.

Lemma category_parse_section (d : analysis) (s : str) :
  category (parse_section d s)
  = if startswith (py "CATEGORY:") s
    then Some (strip (replace (py "CATEGORY:") [] s)) else category d.
Proof. unfold parse_section. label_cases s. Qed.

Lemma summary_parse_section (d : analysis) (s : str) :
  summary (parse_section d s)
  = if startswith (py "SUMMARY:") s
    then Some (strip (replace (py "SUMMARY:") [] s)) else summary d.
Proof. unfold parse_section. label_cases s. Qed.

(** A field of the record after the loop is present exactly when it was
    present before or some section carries its label. *)
Lemma foldl_field {V} (field : analysis -> option V) (label : str)
    (value : str -> V) :
  (forall d s, field (parse_section d s)
               = if startswith label s then Some (value s) else field d) ->
  forall sections d,
    is_Some (field (foldl parse_section d sections))
    <-> is_Some (field d) \/ Exists (fun s => startswith label s = true) sections.
Proof.
  intros Hstep sections. induction sections as [|s sections IH]; intros d.
  - cbn. rewrite Exists_nil. tauto.
  - cbn [foldl]. rewrite IH, Hstep, Exists_cons.
    destruct (startswith label s); [|intuition congruence].
    split; [tauto|]. intros _. left. by eexists.
Qed.

Lemma parse_reply_field {V} (field : analysis -> option V) (label : str)
    (value : str -> V) (content : str) :
  field empty_dict = None ->
  (forall d s, field (parse_section d s)
               = if startswith label s then Some (value s) else field d) ->
  is_Some (field (parse_reply content))
  <-> Exists (fun s => startswith label s = true) (split [nl; nl] content).
Proof.
  intros Hempty Hstep. unfold parse_reply.
  rewrite (foldl_field field label value Hstep), Hempty.
  split; [intros [[? ?]|?]; done | tauto].
Qed.

End Parser.

(** ** Stripping *)

Section Strip.

Variable p : char -> bool.

Lemma lstrip_decomp (s : str) :
  exists pre, s = pre ++ lstrip p s /\ Forall (fun c => p c = true) pre.
Proof.
  induction s as [|c s (pre & E & Hpre)]; [by exists []|].
  cbn [lstrip]. destruct (p c) eqn:Hc.
  - exists (c :: pre). split; [by rewrite E at 1 | by constructor].
  - by exists [].
Qed.

Lemma lstrip_head (s : str) (c : char) :
  head (lstrip p s) = Some c -> p c = false.
Proof.
  induction s as [|d s IH]; [done|]. cbn [lstrip].
  destruct (p d) eqn:Hd; [done|]. by intros [= <-].
Qed.

Lemma rstrip_decomp (s : str) :
  exists post, s = rstrip p s ++ post /\ Forall (fun c => p c = true) post.
Proof.
  destruct (lstrip_decomp (rev s)) as (pre & E & Hpre).
  exists (rev pre). split; [|by apply Forall_rev].
  unfold rstrip. by rewrite <- rev_app_distr, <- E, rev_involutive.
Qed.

Lemma rstrip_last (s : str) (c : char) :
  last (rstrip p s) = Some c -> p c = false.
Proof.
  unfold rstrip. destruct (lstrip p (rev s)) as [|d t] eqn:E; [done|].
  cbn [rev]. rewrite last_snoc. intros [= <-].
  apply (lstrip_head (rev s)). by rewrite E.
Qed.

Lemma rstrip_head (s : str) (c : char) :
  head (rstrip p s) = Some c -> head s = Some c.
Proof.
  destruct (rstrip_decomp s) as (post & E & _). rewrite E at 2.
  by destruct (rstrip p s).
Qed.

Lemma strip_by_decomp (s : str) :
  exists pre post,
    s = pre ++ strip_by p s ++ post
    /\ Forall (fun c => p c = true) pre
    /\ Forall (fun c => p c = true) post.
Proof.
  destruct (lstrip_decomp s) as (pre & E1 & Hpre).
  destruct (rstrip_decomp (lstrip p s)) as (post & E2 & Hpost).
  exists pre, post. unfold strip_by. by rewrite <- E2.
Qed.

Lemma strip_by_head (s : str) (c : char) :
  head (strip_by p s) = Some c -> p c = false.
Proof. intros H%rstrip_head. by apply (lstrip_head s). Qed.

Lemma strip_by_last (s : str) (c : char) :
  last (strip_by p s) = Some c -> p c = false.
Proof. apply rstrip_last. Qed.

Lemma lstrip_app_all (pre s : str) :
  Forall (fun c => p c = true) pre -> lstrip p (pre ++ s) = lstrip p s.
Proof.
  induction 1 as [|c pre Hc _ IH]; [done|]. cbn [app lstrip]. by rewrite Hc.
Qed.

Lemma lstrip_all (s : str) :
  Forall (fun c => p c = true) s -> lstrip p s = [].
Proof.
  intros H. rewrite <- (app_nil_r s). by rewrite lstrip_app_all.
Qed.

Lemma lstrip_id (s : str) :
  (forall c, head s = Some c -> p c = false) -> lstrip p s = s.
Proof.
  destruct s as [|c s]; [done|]. intros H. cbn [lstrip].
  by rewrite (H c eq_refl).
Qed.

Lemma head_rev (s : str) : head (rev s) = last s.
Proof.
  destruct s as [|c s _] using rev_ind; [done|].
  by rewrite rev_app_distr, last_snoc.
Qed.

(** What is between a run of [p]-characters at each end, and neither
    starts nor ends with one, is what stripping gives. *)
Lemma strip_by_unique (s pre m post : str) :
  s = pre ++ m ++ post ->
  Forall (fun c => p c = true) pre ->
  Forall (fun c => p c = true) post ->
  (forall c, head m = Some c -> p c = false) ->
  (forall c, last m = Some c -> p c = false) ->
  strip_by p s = m.
Proof.
  intros -> Hpre Hpost Hhead Hlast. unfold strip_by.
  rewrite lstrip_app_all by done.
  destruct m as [|c m].
  - cbn [app]. by rewrite lstrip_all.
  - rewrite (lstrip_id ((c :: m) ++ post))
      by (intros d [= <-]; by apply Hhead).
    unfold rstrip. rewrite rev_app_distr.
    rewrite lstrip_app_all by (by apply Forall_rev).
    rewrite lstrip_id; [apply rev_involutive|].
    intros d Hd. rewrite head_rev in Hd. by apply Hlast.
Qed.

End Strip.

(** ** Splitting *)

Section Split.

Lemma split_go_nonempty (sep : str) (k : nat) (cur s : str) :
  split_go sep k cur s ≠ [].
Proof.
  revert k cur. induction s as [|c s IH]; intros k cur; [done|].
  cbn [split_go]. destruct k; [|apply IH].
  destruct (startswith sep (c :: s)); [done | apply IH].
Qed.

Lemma join_cons (sep x : str) (l : list str) :
  l ≠ [] -> join sep (x :: l) = x ++ sep ++ join sep l.
Proof. by destruct l. Qed.

Lemma startswith_length (pre s : str) :
  startswith pre s = true -> (length pre <= length s)%nat.
Proof.
  intros H%startswith_spec. rewrite H, length_app. lia.
Qed.

Lemma join_split_go (sep : str) (s : str) :
  sep ≠ [] ->
  forall (k : nat) (cur : str),
    (k <= length s)%nat ->
    join sep (split_go sep k cur s) = rev cur ++ drop k s.
Proof.
  intros Hsep. induction s as [|c s IH]; intros k cur Hk.
  - cbn in Hk. assert (k = 0%nat) as -> by lia. cbn. by rewrite app_nil_r.
  - cbn [split_go]. destruct k as [|k].
    + destruct (startswith sep (c :: s)) eqn:E.
      * rewrite join_cons by apply split_go_nonempty.
        pose proof (startswith_length _ _ E) as Hl.
        destruct sep as [|d sep]; [done|]. cbn [length Nat.pred] in *.
        rewrite IH by lia. cbn [rev app].
        apply startswith_spec in E. cbn [length drop] in E.
        cbn [drop]. f_equal. symmetry. exact E.
      * rewrite IH by lia. cbn [rev drop]. by rewrite <- app_assoc.
    + cbn [length] in Hk. rewrite IH by lia. done.
Qed.

(** Joining the pieces of [s.split(sep)] with [sep] gives [s] back. *)
Lemma join_split (sep s : str) : sep ≠ [] -> join sep (split sep s) = s.
Proof.
  intros Hsep. unfold split. rewrite join_split_go by (done || cbn; lia).
  done.
Qed.

End Split.

(** ** The characters of the parsed record are characters of the reply *)

Section Chars.

Variable P : char -> Prop.

Lemma Forall_strip_by (p : char -> bool) (s : str) :
  Forall P s -> Forall P (strip_by p s).
Proof.
  destruct (strip_by_decomp p s) as (pre & post & E & _). rewrite E at 1.
  by intros [_ [H _]%Forall_app]%Forall_app.
Qed.

Lemma Forall_replace_go (old : str) (k : nat) (s : str) :
  Forall P s -> Forall P (replace_go old [] k s).
Proof.
  intros H. revert k. induction H as [|c s Hc Hs IH]; intros k; [done|].
  cbn [replace_go]. destruct k as [|k]; [|apply IH].
  destruct (startswith old (c :: s)); [apply IH|].
  constructor; [done | apply IH].
Qed.

Lemma Forall_join (sep : str) (l : list str) :
  Forall P (join sep l) -> Forall (Forall P) l.
Proof.
  induction l as [|x l IH]; [done|].
  destruct l as [|y l].
  - intros H. by repeat constructor.
  - rewrite join_cons by done.
    intros [Hx [_ Hl]%Forall_app]%Forall_app. constructor; [done | by apply IH].
Qed.

Lemma Forall_split (sep s : str) :
  sep ≠ [] -> Forall P s -> Forall (Forall P) (split sep s).
Proof.
  intros Hsep Hs. apply (Forall_join sep). by rewrite join_split.
Qed.

Lemma Forall_concepts_of (section : str) :
  Forall P section -> Forall (Forall P) (TranscriptFetcher.concepts_of section).
Proof.
  intros Hs. unfold TranscriptFetcher.concepts_of.
  pose proof (Forall_split [nl] section ltac:(done) Hs) as Hl.
  assert (Forall (Forall P) (tail (split [nl] section))) as Ht
    by (destruct Hl; [done | done]).
  induction Ht as [|line lines Hline _ IH]; [done|].
  cbn [List.filter]. destruct (truthy (strip line)); [|exact IH].
  cbn [map]. constructor; [|exact IH].
  unfold strip, strip_chars. by do 2 apply Forall_strip_by.
Qed.

End Chars.

Lemma encodable_Forall (s : str) :
  encodable s = true <-> Forall (fun c => is_surrogate c = false) s.
Proof.
  unfold encodable. induction s as [|c s IH]; [done|].
  cbn [forallb]. rewrite andb_true_iff, negb_true_iff, IH, Forall_cons. done.
Qed.

Lemma parse_section_encodable (d : analysis) (section : str) :
  encodable section = true ->
  analysis_encodable d = true ->
  analysis_encodable (TranscriptFetcher.parse_section d section) = true.
Proof.
  intros Hs%encodable_Forall. unfold analysis_encodable.
  rewrite !andb_true_iff. intros [[[Ha Hk] Hc] Hsum].
  assert (forall label, encodable (strip (replace label [] section)) = true) as Hfield.
  { intros label. apply encodable_Forall, Forall_strip_by, Forall_replace_go, Hs. }
  assert (forallb encodable (TranscriptFetcher.concepts_of section) = true) as Hcs.
  { apply forallb_forall. intros concept Hin. apply encodable_Forall.
    pose proof (Forall_concepts_of _ section Hs) as Hall.
    rewrite Forall_forall in Hall. apply Hall. by apply list_elem_of_In. }
  unfold TranscriptFetcher.parse_section.
  repeat case_match; cbn [abstract key_concepts category summary];
    repeat split; first [done | apply Hfield | exact Hcs].
Qed.

(** A reply without surrogates parses to a record without surrogates. *)
Lemma parse_reply_encodable (content : str) :
  encodable content = true ->
  analysis_encodable (TranscriptFetcher.parse_reply content) = true.
Proof.
  intros Hc%encodable_Forall. unfold TranscriptFetcher.parse_reply.
  pose proof (Forall_split _ [nl; nl] content ltac:(done) Hc) as Hl.
  assert (analysis_encodable empty_dict = true) as Hd by reflexivity.
  revert Hd. generalize empty_dict.
  induction Hl as [|section sections Hs _ IH]; intros d Hd; [exact Hd|].
  cbn [foldl]. apply IH, parse_section_encodable; [|exact Hd].
  by apply encodable_Forall.
Qed.

(** C4: the reply is cut at every blank line ([\n\n]); a field of the record
    is present exactly when some section starts with its label; a section
    that starts with none of the four labels changes nothing; and nothing
    in the parser can fail.  A reply without a [CATEGORY:] section gives a
    record without category and with the three other fields. *)
Theorem parse_reply_omits_unlabelled (content : str) :
  let sections := split [nl; nl] content in
  let d := TranscriptFetcher.parse_reply content in
  let labelled label := Exists (fun s => startswith (py label) s = true) sections in
  join [nl; nl] sections = content
  /\ (is_Some (abstract d) <-> labelled "ABSTRACT:")
  /\ (is_Some (key_concepts d) <-> labelled "KEY CONCEPTS:")
  /\ (is_Some (category d) <-> labelled "CATEGORY:")
  /\ (is_Some (summary d) <-> labelled "SUMMARY:")
  /\ (forall d0 s,
        startswith (py "ABSTRACT:") s = false ->
        startswith (py "KEY CONCEPTS:") s = false ->
        startswith (py "CATEGORY:") s = false ->
        startswith (py "SUMMARY:") s = false ->
        TranscriptFetcher.parse_section d0 s = d0)
  /\ TranscriptFetcher.parse_reply
       (py "ABSTRACT:" ++ [nl] ++ py "A talk about proofs." ++ [nl; nl]
        ++ py "KEY CONCEPTS:" ++ [nl] ++ bullet :: py " induction" ++ [nl]
        ++ bullet :: py " rewriting" ++ [nl; nl]
        ++ py "SUMMARY:" ++ [nl] ++ py "The speaker explains proofs.")
     = {| abstract := Some (py "A talk about proofs.");
          key_concepts := Some [py "induction"; py "rewriting"];
          category := None;
          summary := Some (py "The speaker explains proofs.") |}.
Proof.
  cbv zeta. split; [by apply join_split|].
  split; [exact (parse_reply_field abstract _ _ content eq_refl abstract_parse_section)|].
  split; [exact (parse_reply_field key_concepts _ _ content eq_refl key_concepts_parse_section)|].
  split; [exact (parse_reply_field category _ _ content eq_refl category_parse_section)|].
  split; [exact (parse_reply_field summary _ _ content eq_refl summary_parse_section)|].
  split; [|vm_compute; reflexivity].
  intros d0 s HA HK HC HS. unfold TranscriptFetcher.parse_section.
  by rewrite HA, HK, HC, HS.
Qed.

Lemma parse_reply_omits_unlabelled_witness :
  TranscriptFetcher.parse_section
    {| abstract := Some (py "kept"); key_concepts := None;
       category := None; summary := None |}
    (py "**CATEGORY:** science")
  = {| abstract := Some (py "kept"); key_concepts := None;
       category := None; summary := None |}.
Proof.
  apply (parse_reply_omits_unlabelled []); reflexivity.
Defined.

(** ** The key-concepts section *)

Lemma char_in_bullet_sp (c : char) :
  char_in [bullet; sp] c = true <-> bullet_or_sp c.
Proof.
  unfold char_in, bullet_or_sp. cbn [existsb]. rewrite orb_false_r.
  rewrite orb_true_iff, !N.eqb_eq. done.
Qed.

Lemma not_char_in_bullet_sp (c : char) :
  char_in [bullet; sp] c = false <-> ~ bullet_or_sp c.
Proof.
  rewrite <- char_in_bullet_sp. by destruct (char_in [bullet; sp] c).
Qed.

(** What the comprehension makes of a line is the bullet of the line, and
    nothing else is. *)
Lemma concept_of_line (line text : str) :
  is_bullet_of line text <-> text = strip (strip_chars [bullet; sp] line).
Proof.
  unfold strip, strip_chars. split.
  - intros (pre1 & pre2 & post2 & post1 & E & Hpre1 & Hpost1 & Hhead1 & Hlast1
            & Hpre2 & Hpost2 & Hhead2 & Hlast2).
    rewrite (strip_by_unique (char_in [bullet; sp]) line pre1
               (pre2 ++ text ++ post2) post1).
    + symmetry. by apply (strip_by_unique isspace _ pre2 text post2).
    + rewrite E. by rewrite <- !app_assoc.
    + eapply Forall_impl; [exact Hpre1 | by intros c ?%char_in_bullet_sp].
    + eapply Forall_impl; [exact Hpost1 | by intros c ?%char_in_bullet_sp].
    + intros c Hc. by apply not_char_in_bullet_sp, Hhead1.
    + intros c Hc. by apply not_char_in_bullet_sp, Hlast1.
  - intros ->.
    destruct (strip_by_decomp (char_in [bullet; sp]) line)
      as (pre1 & post1 & E1 & Hpre1 & Hpost1).
    destruct (strip_by_decomp isspace (strip_by (char_in [bullet; sp]) line))
      as (pre2 & post2 & E2 & Hpre2 & Hpost2).
    exists pre1, pre2, post2, post1.
    split; [rewrite E1 at 1; rewrite E2 at 1; by rewrite <- !app_assoc|].
    split; [eapply Forall_impl; [exact Hpre1 | by intros c ?%char_in_bullet_sp]|].
    split; [eapply Forall_impl; [exact Hpost1 | by intros c ?%char_in_bullet_sp]|].
    rewrite <- E2.
    split; [intros c Hc; by apply not_char_in_bullet_sp, (strip_by_head _ line)|].
    split; [intros c Hc; by apply not_char_in_bullet_sp, (strip_by_last _ line)|].
    split; [exact Hpre2|]. split; [exact Hpost2|].
    split; [apply strip_by_head | apply strip_by_last].
Qed.

(** C8, as it holds: the lines after the label line that are not blank give
    one bullet each, in order, and the bullet of a line is exactly this: the
    line without the bullet characters (U+2022) and spaces at its two ends,
    and then without the white space at the two ends of what is left, the
    text in between unchanged.  No other text is the bullet of the line; so
    the marker of [• alpha] is removed, a bullet character at the end of a
    line is removed as well, and a marker that stands behind a tab is
    kept. *)
Theorem concepts_of_lines (section : str) :
  Forall2
    (fun line concept => forall text, is_bullet_of line text <-> text = concept)
    (List.filter (fun line => truthy (strip line)) (tail (split [nl] section)))
    (TranscriptFetcher.concepts_of section).
Proof.
  unfold TranscriptFetcher.concepts_of.
  induction (List.filter _ _) as [|line lines IH]; constructor; [|exact IH].
  intros text. apply concept_of_line.
Qed.

(** C8 as the specification states it fails: a bullet character at the end
    of a line is stripped as well, so the bullet is not the rest of the
    line after its leading marker; and the marker of a line indented with a
    tab is not stripped. *)
Lemma concepts_of_strips_both_ends :
  let line := bullet :: py " alpha " ++ [bullet] in
  TranscriptFetcher.concepts_of (py "KEY CONCEPTS:" ++ [nl] ++ line) = [py "alpha"]
  /\ ~ (exists marker, line = marker ++ py "alpha")
  /\ TranscriptFetcher.concepts_of
       (py "KEY CONCEPTS:" ++ [nl] ++ 9 :: bullet :: py " alpha")
     = [bullet :: py " alpha"].
Proof.
  split; [vm_compute; reflexivity|]. split; [|vm_compute; reflexivity].
  intros [marker E]. apply (f_equal (@rev N)) in E.
  rewrite rev_app_distr in E. cbn in E. discriminate E.
Qed.

(** ** The caption pipeline *)

Section CaptionPipeline.

Import TranscriptFetcher.
Variable svc : services.

Ltac run_M :=
  unfold main, process_transcript, fetch_transcript, __init__, try_except,
    mbind, M_bind, mret, M_ret, net, lift, print, write_text, write_text_in,
    read_file, mkdir, getenv, raise;
  cbn -[analysis_text parse_reply data py summarize_text get_video_id
        select_transcript format_transcript path_join strip dir_exists
        dirname write_analysis].

Ltac step H :=
  rewrite H;
  cbn -[analysis_text parse_reply data py summarize_text get_video_id
        select_transcript format_transcript path_join strip dir_exists
        dirname write_analysis].


(** When the directory is there and the texts encode, the whole analysis
    is written. *)
Lemma write_analysis_ok (summary_path language : str) (d : analysis)
    (env : gmap string str) (files : gmap str str) (dirs : gset str)
    (out : list str) (n : nat) (fs : option (list Stream)) :
  dir_exists (dirname summary_path) (World env files dirs out n fs) = true ->
  encodable language = true ->
  analysis_encodable d = true ->
  write_analysis summary_path language d (World env files dirs out n fs)
  = (Ok tt,
     World env (<[summary_path := analysis_text language d]> files) dirs out n fs).
Proof.
  intros Hdir Hlang Hd. unfold analysis_encodable in Hd.
  rewrite !andb_true_iff in Hd. destruct Hd as [[[Ha Hk] Hc] Hs].
  assert (forall v, encodable (default [] v) = true ->
                    encodable (default not_available v) = true) as Hdef
    by (by intros [v|]).
  unfold write_analysis, open_w, open_in. unfold mbind, M_bind.
  rewrite Hdir.
  rewrite f_write_open
    by (rewrite !encodable_app, Hlang; reflexivity).
  rewrite f_write_open by reflexivity.
  rewrite f_write_open by (by apply Hdef).
  rewrite f_write_open by reflexivity.
  rewrite (for_each_f_write summary_path
             (fun concept => bullet :: sp :: concept ++ [nl])).
  2:{ apply forallb_forall. intros concept Hin.
      rewrite forallb_forall in Hk. specialize (Hk concept Hin).
      change (bullet :: sp :: concept ++ [nl])
        with ([bullet; sp] ++ concept ++ [nl]).
      rewrite !encodable_app, Hk. reflexivity. }
  rewrite f_write_open
    by (rewrite !encodable_app, (Hdef _ Hc); reflexivity).
  rewrite f_write_open by reflexivity.
  rewrite f_write_open by (by apply Hdef).
  unfold analysis_text. rewrite <- !app_assoc. reflexivity.
Qed.

(** Whatever happens while the analysis is written, no other file is
    touched, and nothing but the file system changes. *)
Lemma touches_only_f_write (path s : str) : touches_only path (f_write path s).
Proof.
  intros w. unfold f_write, f_append, raise. destruct (encodable s).
  - eexists _, _. split; [reflexivity|].
    intros other Hne. by apply lookup_insert_ne.
  - eexists _, (w_files w). split; [by destruct w | done].
Qed.

Lemma touches_only_open_w (path : str) : touches_only path (open_w path).
Proof.
  intros w. unfold open_w, open_in. destruct (dir_exists (dirname path) w).
  - eexists _, _. split; [reflexivity|].
    intros other Hne. by apply lookup_insert_ne.
  - eexists _, (w_files w). split; [by destruct w | done].
Qed.

Lemma touches_only_seq (path : str) (m k : M unit) :
  touches_only path m -> touches_only path k -> touches_only path (m;; k).
Proof.
  intros Hm Hk w. unfold mbind, M_bind.
  destruct (Hm w) as (r & files & -> & Hfiles).
  destruct r as [[]|e]; [|by eexists _, _].
  destruct (Hk (World (w_env w) files (w_dirs w) (w_stdout w)
                  (w_net_calls w) (w_fmt_streams w)))
    as (r' & files' & -> & Hfiles').
  eexists _, _. split; [reflexivity|].
  intros other Hne. cbn in Hfiles'. by rewrite Hfiles', Hfiles.
Qed.

Lemma touches_only_for_each (path : str) (body : str -> M unit) (l : list str) :
  (forall x, touches_only path (body x)) ->
  touches_only path (for_each l body).
Proof.
  intros Hbody. induction l as [|x l IH].
  - intros w. exists (Ok tt), (w_files w). split; [by destruct w | done].
  - cbn [for_each]. by apply touches_only_seq.
Qed.

Lemma touches_only_write_analysis (summary_path language : str) (d : analysis) :
  touches_only summary_path (write_analysis summary_path language d).
Proof.
  unfold write_analysis.
  repeat first
    [ apply touches_only_seq
    | apply touches_only_open_w
    | apply touches_only_f_write
    | apply touches_only_for_each; intros concept ].
Qed.

Lemma for_each_print (f : str -> str) (l : list str) (w : world) :
  for_each l
    (fun x w0 =>
       (Ok tt, World (w_env w0) (w_files w0) (w_dirs w0) (w_stdout w0 ++ [f x])
                     (w_net_calls w0) (w_fmt_streams w0))) w
  = (Ok tt, World (w_env w) (w_files w) (w_dirs w) (w_stdout w ++ map f l)
                  (w_net_calls w) (w_fmt_streams w)).
Proof.
  revert w. induction l as [|x l IH]; intros w.
  - cbn. rewrite app_nil_r. by destruct w.
  - cbn [for_each map]. unfold mbind, M_bind.
    rewrite IH. cbn. by rewrite <- app_assoc.
Qed.

Lemma summarize_text_files (self : t) (text language : str) (w : world) :
  w_files (summarize_text svc self text language w).2 = w_files w.
Proof.
  unfold summarize_text, try_except, mbind, M_bind, mret, M_ret, net, lift,
    print, raise.
  cbn -[data py parse_reply].
  destruct (requests_post svc _) as [resp|e]; cbn -[py parse_reply].
  - destruct (raise_for_status resp) as [[]|e]; cbn -[py parse_reply].
    + destruct (json_content resp) as [content|e]; cbn -[py parse_reply]; [done|].
      by destruct (exn_response e) as [[body|]|].
    + by destruct (exn_response e) as [[body|]|].
  - by destruct (exn_response e) as [[body|]|].
Qed.


(** Without a record from the summarization, no file is written. *)
Lemma process_transcript_failed (self : t) (text language summary_path : str)
    (w : world) :
  (forall w0 d, (summarize_text svc self text language w0).1 ≠ Ok (Some d)) ->
  w_files (process_transcript svc self (text, language) summary_path w).2
  = w_files w.
Proof.
  intros Hfail. run_M.
  match goal with
  | |- context [summarize_text svc self text language ?w0] =>
      pose proof (summarize_text_files self text language w0) as Hf;
      specialize (Hfail w0);
      destruct (summarize_text svc self text language w0) as [[[d|]|e] w1]
  end; cbn -[write_analysis] in *; [by destruct (Hfail d) | done | done].
Qed.

Lemma main_files_failed_summary (w : world) (contents key id : str)
    (tl : TranscriptList) (tr : Transcript) (cues : list str) :
  w_files w !! py "url.txt" = Some contents ->
  truthy (strip contents) = true ->
  w_env w !! "DEEPSEEK_API_KEY" = Some key ->
  truthy key = true ->
  get_video_id (strip contents) = Ok id ->
  list_transcripts svc id = Ok tl ->
  select_transcript tl = Ok tr ->
  t_fetch tr = Ok cues ->
  (forall w0 d,
     (summarize_text svc
        {| output_dir := py "transcripts"; deepseek_api_key := key |}
        (format_transcript cues) (language_code tr) w0).1 ≠ Ok (Some d)) ->
  w_files (main svc w).2
  = <[path_join (py "transcripts") (id ++ py "_transcript.txt")
      := py "Language: " ++ language_code tr ++ [nl; nl] ++ format_transcript cues]>
      (w_files w).
Proof.
  intros Hurl Hnonempty Hkey Hkey' Hid Htl Hsel Hfetch Hfail.
  pose proof (get_video_id_is_id _ _ Hid) as Hid'.
  run_M. step Hurl. step Hnonempty. step dir_exists_transcripts.
  step Hkey. step Hkey'. step Hid.
  step Htl. step Hsel. step Hfetch.
  rewrite transcripts_file_dir by done.
  match goal with
  | |- context [summarize_text svc ?self ?text ?lang ?w0] =>
      pose proof (summarize_text_files self text lang w0) as Hf;
      specialize (Hfail w0);
      destruct (summarize_text svc self text lang w0) as [[[d|]|e] w1]
  end; cbn -[py path_join format_transcript write_analysis] in *.
  - by destruct (Hfail d).
  - done.
  - by destruct (exn_cls e).
Qed.

End CaptionPipeline.

Lemma transcript_path_ne_summary_path (dir id : str) :
  path_join dir (id ++ py "_transcript.txt") ≠ path_join dir (id ++ py "_analysis.txt").
Proof.
  unfold path_join. intros H. apply app_inv_head in H.
  cbn [py app] in H. injection H as H. apply app_inv_head in H. discriminate H.
Qed.

(** C7: when the URL file, the token, the caption service and the track all
    answer, and the summarization does not give a record (whatever made it
    fail), [main] leaves the transcript file with the language header and
    the formatted text, and has written no other file: the analysis file is
    as it was before the run. *)
Theorem transcript_survives_failed_summary (svc : services) (w : world)
    (contents key id : str) (tl : TranscriptList) (tr : Transcript)
    (cues : list str) :
  w_files w !! py "url.txt" = Some contents ->
  truthy (strip contents) = true ->
  w_env w !! "DEEPSEEK_API_KEY" = Some key ->
  truthy key = true ->
  get_video_id (strip contents) = Ok id ->
  list_transcripts svc id = Ok tl ->
  TranscriptFetcher.select_transcript tl = Ok tr ->
  t_fetch tr = Ok cues ->
  (forall w0 d,
     (TranscriptFetcher.summarize_text svc
        {| TranscriptFetcher.output_dir := py "transcripts";
           TranscriptFetcher.deepseek_api_key := key |}
        (format_transcript cues) (language_code tr) w0).1 ≠ Ok (Some d)) ->
  let transcript_path := path_join (py "transcripts") (id ++ py "_transcript.txt") in
  let summary_path := path_join (py "transcripts") (id ++ py "_analysis.txt") in
  let w' := (TranscriptFetcher.main svc w).2 in
  w_files w' !! transcript_path
  = Some (py "Language: " ++ language_code tr ++ [nl; nl] ++ format_transcript cues)
  /\ w_files w' !! summary_path = w_files w !! summary_path
  /\ forall path, path ≠ transcript_path -> w_files w' !! path = w_files w !! path.
Proof.
  intros Hurl Hnonempty Hkey Hkey' Hid Htl Hsel Hfetch Hfail. cbv zeta.
  rewrite (main_files_failed_summary svc w contents key id tl tr cues) by done.
  split; [apply lookup_insert_eq|].
  split; [|by intros path Hne; apply lookup_insert_ne].
  apply lookup_insert_ne, transcript_path_ne_summary_path.
Qed.

Lemma transcript_survives_failed_summary_witness :
  let en := {| language_code := py "en"; is_generated := true;
               t_fetch := Ok [py "never gonna"; py "give you up"] |} in
  let svc :=
    {| list_transcripts := fun id =>
         Ok {| tl_video_id := id; manually_created_transcripts := ∅;
               generated_transcripts := {[ py "en" := en ]} |};
       requests_post := fun _ =>
         Raise (Exn LibraryError (py "Connection timed out") (Some None)) |} in
  let w := World {[ "DEEPSEEK_API_KEY" := py "sk-1" ]}
                 {[ py "url.txt" := py "https://youtu.be/dQw4w9WgXcQ" ++ [nl] ]}
                 ∅ [] 0 None in
  let w' := (TranscriptFetcher.main svc w).2 in
  w_files w' !! py "transcripts/dQw4w9WgXcQ_transcript.txt"
  = Some (py "Language: en" ++ [nl; nl] ++ py "never gonna" ++ [nl] ++ py "give you up")
  /\ w_files w' !! py "transcripts/dQw4w9WgXcQ_analysis.txt" = None.
Proof.
  intros en svc w w'.
  destruct (transcript_survives_failed_summary svc w
              (py "https://youtu.be/dQw4w9WgXcQ" ++ [nl]) (py "sk-1")
              (py "dQw4w9WgXcQ")
              {| tl_video_id := py "dQw4w9WgXcQ"; manually_created_transcripts := ∅;
                 generated_transcripts := {[ py "en" := en ]} |}
              en [py "never gonna"; py "give you up"])
    as (H1 & H2 & _);
    try (vm_compute; reflexivity).
  - intros w0 d. vm_compute. discriminate.
  - split; [exact H1 | exact H2].
Defined.


(** ** The analysis file *)




(** ** Sorting and the stream queries *)

Section Sorting.

Context {A : Type} (key : A -> N).

Lemma elem_of_insert_by (x y : A) (l : list A) :
  y ∈ insert_by key x l <-> y = x \/ y ∈ l.
Proof.
  induction l as [|z l IH]; cbn [insert_by].
  - rewrite list_elem_of_singleton, elem_of_nil. tauto.
  - destruct (key x <=? key z); rewrite !elem_of_cons; [tauto|].
    rewrite IH. tauto.
Qed.

Lemma elem_of_sorted_by (y : A) (l : list A) :
  y ∈ sorted_by key l <-> y ∈ l.
Proof.
  induction l as [|x l IH]; cbn [sorted_by]; [done|].
  by rewrite elem_of_insert_by, elem_of_cons, IH.
Qed.

Lemma insert_by_sorted (x : A) (l : list A) :
  StronglySorted (fun a b => key a <= key b) l ->
  StronglySorted (fun a b => key a <= key b) (insert_by key x l).
Proof.
  induction l as [|z l IH]; cbn [insert_by]; intros Hs.
  - by repeat constructor.
  - destruct (N.leb_spec (key x) (key z)) as [Hle|Hlt].
    + apply StronglySorted_cons in Hs as Hs'. destruct Hs' as [Hz _].
      constructor; [done|]. constructor; [done|].
      eapply Forall_impl; [exact Hz|]. cbn. intros. lia.
    + apply StronglySorted_cons in Hs as [Hz Hl].
      constructor; [by apply IH|].
      apply Forall_forall. intros y [->|Hy]%elem_of_insert_by; [lia|].
      by eapply Forall_forall in Hz.
Qed.

Lemma sorted_by_sorted (l : list A) :
  StronglySorted (fun a b => key a <= key b) (sorted_by key l).
Proof.
  induction l as [|x l IH]; cbn [sorted_by]; [constructor|].
  by apply insert_by_sorted.
Qed.

Lemma sorted_by_head (l : list A) (m : A) :
  head (sorted_by key l) = Some m ->
  m ∈ l /\ forall x, x ∈ l -> key m <= key x.
Proof.
  intros Hm. pose proof (sorted_by_sorted l) as Hs.
  destruct (sorted_by key l) as [|m' l'] eqn:E; [done|].
  injection Hm as ->. apply StronglySorted_cons in Hs as [Hm _].
  split; [apply elem_of_sorted_by; rewrite E; apply elem_of_cons; by left|].
  intros x Hx%elem_of_sorted_by. rewrite E in Hx.
  apply elem_of_cons in Hx as [->|Hx]; [lia|].
  by eapply Forall_forall in Hm.
Qed.

Lemma sorted_by_last (l : list A) (m : A) :
  head (rev (sorted_by key l)) = Some m ->
  m ∈ l /\ forall x, x ∈ l -> key x <= key m.
Proof.
  intros Hm. pose proof (sorted_by_sorted l) as Hs.
  assert (exists l', sorted_by key l = l' ++ [m]) as [l' E].
  { destruct (rev (sorted_by key l)) as [|m' r] eqn:Er; [done|].
    injection Hm as ->. exists (rev r).
    by rewrite <- (rev_involutive (sorted_by key l)), Er. }
  rewrite E in Hs. split.
  { apply elem_of_sorted_by. rewrite E, elem_of_app, list_elem_of_singleton. by right. }
  intros x Hx%elem_of_sorted_by. rewrite E in Hx.
  apply elem_of_app in Hx as [Hx|Hx%list_elem_of_singleton]; [|subst; lia].
  apply (StronglySorted_app_1_elem_of _ _ _ x m Hs Hx).
  by apply list_elem_of_singleton.
Qed.

End Sorting.

Section Queries.

Lemma elem_of_List_filter {A} (f : A -> bool) (x : A) (l : list A) :
  x ∈ List.filter f l <-> x ∈ l /\ f x = true.
Proof. rewrite !list_elem_of_In. apply filter_In. Qed.

Lemma elem_of_order_by_source (attr : Stream -> option N) (q : list Stream)
    (s : Stream) :
  s ∈ order_by attr q <-> s ∈ q /\ is_Some (attr s).
Proof.
  unfold order_by. rewrite elem_of_sorted_by, elem_of_List_filter.
  by rewrite bool_decide_eq_true.
Qed.

(** [order_by(attr).first()] is a stream with the least [attr]. *)
Lemma order_by_first (attr : Stream -> option N) (q : list Stream) (m : Stream) :
  first (order_by attr q) = Some m ->
  m ∈ q /\ exists v, attr m = Some v
            /\ forall s v', s ∈ q -> attr s = Some v' -> v <= v'.
Proof.
  intros [Hm Hmin]%sorted_by_head.
  apply elem_of_List_filter in Hm as [Hm [v Hv]%bool_decide_eq_true].
  split; [done|]. exists v. split; [done|]. intros s v' Hs Hv'.
  specialize (Hmin s). rewrite Hv, Hv' in Hmin. apply Hmin.
  apply elem_of_List_filter. split; [done|].
  apply bool_decide_eq_true. by eexists.
Qed.

(** [order_by(attr).desc().first()] is a stream with the greatest
    [attr]. *)
Lemma order_by_desc_first (attr : Stream -> option N) (q : list Stream)
    (m : Stream) :
  first (desc (order_by attr q)) = Some m ->
  m ∈ q /\ exists v, attr m = Some v
            /\ forall s v', s ∈ q -> attr s = Some v' -> v' <= v.
Proof.
  intros [Hm Hmax]%sorted_by_last.
  apply elem_of_List_filter in Hm as [Hm [v Hv]%bool_decide_eq_true].
  split; [done|]. exists v. split; [done|]. intros s v' Hs Hv'.
  specialize (Hmax s). rewrite Hv, Hv' in Hmax. apply Hmax.
  apply elem_of_List_filter. split; [done|].
  apply bool_decide_eq_true. by eexists.
Qed.

Lemma order_by_first_None (attr : Stream -> option N) (q : list Stream) :
  first (order_by attr q) = None ->
  forall s, s ∈ q -> attr s = None.
Proof.
  unfold first. intros E s Hs.
  destruct (order_by attr q) as [|x l] eqn:Eo; [|done].
  destruct (attr s) as [v|] eqn:Hv; [|done].
  assert (s ∈ order_by attr q) as Hin
    by (apply elem_of_order_by_source; split; [done | by eexists]).
  rewrite Eo in Hin. by apply elem_of_nil in Hin.
Qed.

Lemma order_by_desc_first_None (attr : Stream -> option N) (q : list Stream) :
  first (desc (order_by attr q)) = None ->
  forall s, s ∈ q -> attr s = None.
Proof.
  unfold first, desc. intros E. apply order_by_first_None. unfold first.
  destruct (order_by attr q) as [|x l]; [done|].
  cbn [rev] in E. by destruct (rev l).
Qed.

Lemma first_filter_Some {A} (f : A -> bool) (q : list A) (m : A) :
  head (List.filter f q) = Some m -> m ∈ q /\ f m = true.
Proof.
  intros E. apply elem_of_List_filter.
  destruct (List.filter f q); [done|]. injection E as ->.
  apply elem_of_cons. by left.
Qed.

Lemma first_filter_None {A} (f : A -> bool) (q : list A) :
  head (List.filter f q) = None -> forall s, s ∈ q -> f s = false.
Proof.
  intros E s Hs. destruct (f s) eqn:Hf; [|done].
  assert (s ∈ List.filter f q) as Hin by by apply elem_of_List_filter.
  destruct (List.filter f q); [by apply elem_of_nil in Hin | done].
Qed.

End Queries.

(** ** The Audio Acquirer *)

Section AudioAcquirer.

Import VideoDownloader.
Variable pf : platform.

(** The three tiers of the inner [try], on the stream list [q]. *)
Lemma select_stream_fetched (w : world) (q : list Stream) :
  w_fmt_streams w = None ->
  yt_fetch pf (w_net_calls w) = Ok q ->
  select_stream pf w
  = (Ok match first (desc (order_by abr (filter_only_audio q))) with
        | Some s => Some s
        | None =>
            match first (filter_only_audio q) with
            | Some s => Some s
            | None => first (order_by resolution (filter_progressive q))
            end
        end,
     World (w_env w) (w_files w) (w_dirs w) (w_stdout w)
           (S (w_net_calls w)) (Some q)).
Proof.
  intros Hfresh Hfetch.
  unfold select_stream, try_except, mbind, M_bind, mret, M_ret, streams.
  rewrite Hfresh, Hfetch. cbn [w_fmt_streams].
  destruct (first (desc (order_by abr (filter_only_audio q)))); [done|].
  cbn [w_fmt_streams].
  destruct (first (filter_only_audio q)); done.
Qed.

(** The [except] branch: the list could not be fetched, and a second
    fetch gives [q]. *)
Lemma select_stream_refetched (w : world) (e : exn) (q : list Stream) :
  w_fmt_streams w = None ->
  yt_fetch pf (w_net_calls w) = Raise e ->
  yt_fetch pf (S (w_net_calls w)) = Ok q ->
  select_stream pf w
  = (Ok (first q),
     World (w_env w) (w_files w) (w_dirs w)
           (w_stdout w ++ [py "Stream selection error: " ++ exn_msg e])
           (S (S (w_net_calls w))) (Some q)).
Proof.
  intros Hfresh Hfetch Hretry.
  unfold select_stream, try_except, mbind, M_bind, mret, M_ret, streams, print.
  rewrite Hfresh, Hfetch. cbn [w_fmt_streams w_net_calls]. by rewrite Hretry.
Qed.

Lemma progressive_not_only_audio (s : Stream) :
  is_progressive s = true -> only_audio s = false.
Proof.
  unfold only_audio, includes_audio_track, includes_video_track.
  by intros ->.
Qed.

(** With no stream selected, the body raises, and the handler reports it
    and returns [None]. *)
Lemma download_audio_nothing_selected (self : t) (url : str) (w w1 : world) :
  yt_construct pf url = Ok tt ->
  select_stream pf (World (w_env w) (w_files w) (w_dirs w) (w_stdout w)
                          (w_net_calls w) None) = (Ok None, w1) ->
  download_audio_body pf self url w = (Raise no_stream_error, w1)
  /\ exists w',
      download_audio pf self url w = (Ok None, w')
      /\ w_files w' = w_files w1
      /\ py "Error downloading/converting video: No suitable audio stream found"
         ∈ w_stdout w'.
Proof.
  intros Hnew Hsel.
  assert (download_audio_body pf self url w = (Raise no_stream_error, w1)) as Hbody.
  { unfold download_audio_body, mbind, M_bind, new_YouTube.
    rewrite Hnew, Hsel. reflexivity. }
  split; [exact Hbody|].
  unfold download_audio, try_except. rewrite Hbody.
  eexists. split; [reflexivity|]. split; [reflexivity|].
  cbn. rewrite !elem_of_app, !list_elem_of_singleton. tauto.
Qed.

(** With a stream selected, that stream is the one downloaded and
    converted. *)
Lemma download_audio_selected (self : t) (url : str) (w w1 : world)
    (s : Stream) (content wav : str) :
  yt_construct pf url = Ok tt ->
  select_stream pf (World (w_env w) (w_files w) (w_dirs w) (w_stdout w)
                          (w_net_calls w) None) = (Ok (Some s), w1) ->
  s_download s = Ok content ->
  ffmpeg_run pf content = inl wav ->
  let downloaded_path :=
    {| p_parent := output_dir self; p_stem := default_stem s;
       p_suffix := default_suffix s |} in
  let wav_path := with_suffix downloaded_path (py ".wav") in
  exists w',
    download_audio pf self url w = (Ok (Some wav_path), w')
    /\ w_files w'
       = delete (path_str downloaded_path)
           (<[path_str wav_path := wav]>
              (<[path_str downloaded_path := content]> (w_files w1)))
    /\ w_dirs w' = w_dirs w1.
Proof.
  intros Hnew Hsel Hdl Hff downloaded_path wav_path.
  unfold download_audio, try_except, download_audio_body, mbind, M_bind,
    new_YouTube.
  rewrite Hnew, Hsel.
  unfold print, download, _convert_to_wav, mbind, M_bind, mret, M_ret, net,
    write_file, read_file, unlink.
  cbn -[py path_str with_suffix str_of_int]. rewrite Hdl.
  cbn -[py path_str with_suffix str_of_int].
  fold downloaded_path. fold wav_path.
  rewrite lookup_insert_eq, Hff.
  cbn -[py path_str with_suffix str_of_int].
  destruct (decide (path_str wav_path = path_str downloaded_path)) as [E|Hne].
  - rewrite E, lookup_insert_eq. eexists. split; [|split]; reflexivity.
  - rewrite lookup_insert_ne, lookup_insert_eq by done.
    eexists. split; [|split]; reflexivity.
Qed.
End AudioAcquirer.

(** C6, as it holds: on a stream list [q] fetched for a new [YouTube]
    object the selection is, in this order: an audio-only stream of the
    highest bitrate when some audio-only stream has a known bitrate; else an
    audio-only stream when there is one; else a progressive stream of the
    lowest resolution when there is no audio-only stream and some
    progressive stream has a known resolution; else nothing.  A list of
    progressive streams only, one of which has a known resolution, gives one
    of the lowest known resolution.  When fetching the list failed and a
    second fetch gives [q], the selection is the first stream of [q]. *)
Theorem select_stream_fallback (pf : platform) (w : world) (q : list Stream) :
  w_fmt_streams w = None ->
  (yt_fetch pf (w_net_calls w) = Ok q ->
   exists r w',
     VideoDownloader.select_stream pf w = (Ok r, w')
     /\ (forall s, s ∈ q -> only_audio s = true -> is_Some (abr s) ->
         exists m b,
           r = Some m /\ m ∈ q /\ only_audio m = true /\ abr m = Some b
           /\ forall s' b', s' ∈ q -> only_audio s' = true ->
                            abr s' = Some b' -> b' <= b)
     /\ ((forall s, s ∈ q -> only_audio s = true -> abr s = None) ->
         forall s, s ∈ q -> only_audio s = true ->
         exists m, r = Some m /\ m ∈ q /\ only_audio m = true)
     /\ ((forall s, s ∈ q -> only_audio s = false) ->
         forall s, s ∈ q -> is_progressive s = true -> is_Some (resolution s) ->
         exists m x,
           r = Some m /\ m ∈ q /\ is_progressive m = true /\ resolution m = Some x
           /\ forall s' x', s' ∈ q -> is_progressive s' = true ->
                            resolution s' = Some x' -> x <= x')
     /\ ((forall s, s ∈ q -> only_audio s = false) ->
         (forall s, s ∈ q -> is_progressive s = true -> resolution s = None) ->
         r = None)
     /\ ((forall s, s ∈ q -> is_progressive s = true) ->
         forall s, s ∈ q -> is_Some (resolution s) ->
         exists m x,
           r = Some m /\ m ∈ q /\ resolution m = Some x
           /\ forall s' x', s' ∈ q -> resolution s' = Some x' -> x <= x'))
  /\ (forall e,
        yt_fetch pf (w_net_calls w) = Raise e ->
        yt_fetch pf (S (w_net_calls w)) = Ok q ->
        exists w', VideoDownloader.select_stream pf w = (Ok (first q), w')).
Proof.
  intros Hfresh. split.
  2: { intros e Hfetch Hretry. eexists.
       by apply select_stream_refetched with (e := e). }
  intros Hfetch. do 2 eexists. split; [by apply select_stream_fetched|].
  destruct (first (desc (order_by abr (filter_only_audio q)))) as [m1|] eqn:E1.
  - (* tier 1 *)
    apply order_by_desc_first in E1 as ([Hm Hoa]%elem_of_List_filter & b & Hb & Hmax).
    assert (forall s' b', s' ∈ q -> only_audio s' = true -> abr s' = Some b' -> b' <= b)
      as Hmax'.
    { intros s' b' Hs' Ha' Hb'. apply (Hmax s'); [|done].
      by apply elem_of_List_filter. }
    split; [|split; [|split; [|split]]].
    + intros _ _ _ _. by exists m1, b.
    + intros Hnone. specialize (Hnone m1 Hm Hoa). congruence.
    + intros Hnone. specialize (Hnone m1 Hm). congruence.
    + intros Hnone. specialize (Hnone m1 Hm). congruence.
    + intros Hprog. specialize (Hprog m1 Hm).
      apply progressive_not_only_audio in Hprog. congruence.
  - pose proof (order_by_desc_first_None _ _ E1) as Hnoabr.
    assert (forall s, s ∈ q -> only_audio s = true -> abr s = None) as Hnoabr'.
    { intros s Hs Ha. apply Hnoabr. by apply elem_of_List_filter. }
    destruct (first (filter_only_audio q)) as [m2|] eqn:E2.
    + (* tier 2 *)
      apply first_filter_Some in E2 as [Hm Hoa].
      split; [|split; [|split; [|split]]].
      * intros s Hs Ha [b Hb]. rewrite (Hnoabr' s Hs Ha) in Hb. done.
      * intros _ _ _ _. by exists m2.
      * intros Hnone. specialize (Hnone m2 Hm). congruence.
      * intros Hnone. specialize (Hnone m2 Hm). congruence.
      * intros Hprog. specialize (Hprog m2 Hm).
        apply progressive_not_only_audio in Hprog. congruence.
    + pose proof (first_filter_None _ _ E2) as Hnoaudio.
      destruct (first (order_by resolution (filter_progressive q))) as [m3|] eqn:E3.
      * (* tier 3 *)
        apply order_by_first in E3
          as ([Hm Hp]%elem_of_List_filter & x & Hx & Hmin).
        assert (forall s' x', s' ∈ q -> is_progressive s' = true ->
                              resolution s' = Some x' -> x <= x') as Hmin'.
        { intros s' x' Hs' Hp' Hx'. apply (Hmin s'); [|done].
          by apply elem_of_List_filter. }
        split; [|split; [|split; [|split]]].
        -- intros s Hs Ha. rewrite (Hnoaudio s Hs) in Ha. done.
        -- intros _ s Hs Ha. rewrite (Hnoaudio s Hs) in Ha. done.
        -- intros _ _ _ _ _. by exists m3, x.
        -- intros _ Hnone. rewrite (Hnone m3 Hm Hp) in Hx. done.
        -- intros Hprog _ _ _. exists m3, x. repeat split; try done.
           intros s' x' Hs'. apply Hmin'; [done | by apply Hprog].
      * (* nothing *)
        pose proof (order_by_first_None _ _ E3) as Hnores.
        assert (forall s, s ∈ q -> is_progressive s = true -> resolution s = None)
          as Hnores'.
        { intros s Hs Hp. apply Hnores. by apply elem_of_List_filter. }
        split; [|split; [|split; [|split]]].
        -- intros s Hs Ha. rewrite (Hnoaudio s Hs) in Ha. done.
        -- intros _ s Hs Ha. rewrite (Hnoaudio s Hs) in Ha. done.
        -- intros _ s Hs Hp [x Hx]. rewrite (Hnores' s Hs Hp) in Hx. done.
        -- done.
        -- intros Hprog s Hs [x Hx].
           rewrite (Hnores' s Hs (Hprog s Hs)) in Hx. done.
Qed.

Lemma select_stream_fallback_witness :
  let hd := {| itag := 22; s_audio_type := false; is_progressive := true;
               abr := Some 192; resolution := Some 720;
               default_stem := py "talk"; default_suffix := py ".mp4";
               s_download := Ok (py "hd") |} in
  let sd := {| itag := 18; s_audio_type := false; is_progressive := true;
               abr := Some 96; resolution := Some 360;
               default_stem := py "talk"; default_suffix := py ".mp4";
               s_download := Ok (py "sd") |} in
  let pf := {| yt_construct := fun _ => Ok tt;
               yt_fetch := fun _ => Ok [hd; sd];
               ffmpeg_run := fun input => inl input |} in
  exists r w',
    VideoDownloader.select_stream pf (World ∅ ∅ ∅ [] 0 None) = (Ok r, w')
    /\ exists m x, r = Some m /\ m ∈ [hd; sd] /\ resolution m = Some x /\ x <= 360.
Proof.
  intros hd sd pf.
  destruct (select_stream_fallback pf (World ∅ ∅ ∅ [] 0 None) [hd; sd] eq_refl)
    as [Hfetched _].
  destruct (Hfetched eq_refl) as (r & w' & Hrun & _ & _ & _ & _ & Hprog).
  exists r, w'. split; [exact Hrun|].
  destruct (Hprog) with (s := sd) as (m & x & Hr & Hm & Hx & Hmin).
  - intros s Hs. apply elem_of_cons in Hs as [->|Hs]; [reflexivity|].
    apply list_elem_of_singleton in Hs as ->. reflexivity.
  - apply list_elem_of_further, list_elem_of_here.
  - by eexists.
  - exists m, x. repeat split; [exact Hr | exact Hm | exact Hx |].
    apply (Hmin sd); [apply list_elem_of_further, list_elem_of_here | reflexivity].
Defined.

(** C6 as the specification states it fails: a stream set that holds only
    progressive streams, none of them with a known resolution, gives no
    selection ([order_by] drops the streams without the attribute), and
    [download_audio] fails with the no-stream error instead of taking
    one. *)
Lemma select_stream_unknown_resolution :
  let s := {| itag := 5; s_audio_type := false; is_progressive := true;
              abr := None; resolution := None;
              default_stem := py "talk"; default_suffix := py ".flv";
              s_download := Ok (py "flv") |} in
  let pf := {| yt_construct := fun _ => Ok tt;
               yt_fetch := fun _ => Ok [s];
               ffmpeg_run := fun input => inl input |} in
  let w := World ∅ ∅ ∅ [] 0 None in
  let w' := (VideoDownloader.download_audio pf
               {| VideoDownloader.output_dir := py "downloads" |}
               (py "https://youtu.be/dQw4w9WgXcQ") w).2 in
  Forall (fun s' => is_progressive s' = true) [s]
  /\ VideoDownloader.select_stream pf w = (Ok None, World ∅ ∅ ∅ [] 1 (Some [s]))
  /\ (VideoDownloader.download_audio pf
        {| VideoDownloader.output_dir := py "downloads" |}
        (py "https://youtu.be/dQw4w9WgXcQ") w).1 = Ok None
  /\ head (w_stdout w')
     = Some (py "Error downloading/converting video: No suitable audio stream found")
  /\ w_files w' = ∅.
Proof.
  cbv zeta. split; [by repeat constructor|].
  repeat split; vm_compute; reflexivity.
Qed.

(** C9: when none of the three tiers gives a stream for the fetched list,
    or the list could not be fetched and the second fetch gives an empty
    list, [download_audio] raises the no-stream error in its body; its
    handler reports it, nothing is downloaded, and the result is [None]. *)
Theorem download_audio_no_stream (pf : platform) (self : VideoDownloader.t)
    (url : str) (w : world) (q : list Stream) :
  yt_construct pf url = Ok tt ->
  (yt_fetch pf (w_net_calls w) = Ok q
   /\ first (desc (order_by abr (filter_only_audio q))) = None
   /\ first (filter_only_audio q) = None
   /\ first (order_by resolution (filter_progressive q)) = None)
  \/ (exists e, yt_fetch pf (w_net_calls w) = Raise e)
     /\ yt_fetch pf (S (w_net_calls w)) = Ok q /\ first q = None ->
  exists w1 w',
    VideoDownloader.download_audio_body pf self url w
    = (Raise VideoDownloader.no_stream_error, w1)
    /\ VideoDownloader.download_audio pf self url w = (Ok None, w')
    /\ w_files w' = w_files w
    /\ py "Error downloading/converting video: No suitable audio stream found"
       ∈ w_stdout w'.
Proof.
  intros Hnew Hnone.
  set (w0 := World (w_env w) (w_files w) (w_dirs w) (w_stdout w)
                   (w_net_calls w) None).
  assert (exists w1, VideoDownloader.select_stream pf w0 = (Ok None, w1)
                     /\ w_files w1 = w_files w) as (w1 & Hsel & Hfiles).
  { destruct Hnone as [(Hfetch & E1 & E2 & E3) | ([e Hfetch] & Hretry & E4)].
    - eexists. split.
      + rewrite (select_stream_fetched pf w0 q eq_refl Hfetch), E1, E2, E3.
        reflexivity.
      + reflexivity.
    - eexists. split.
      + rewrite (select_stream_refetched pf w0 e q eq_refl Hfetch Hretry), E4.
        reflexivity.
      + reflexivity. }
  destruct (download_audio_nothing_selected pf self url w w1 Hnew Hsel)
    as (Hbody & w' & Hrun & Hfiles' & Hout).
  exists w1, w'. repeat split; [done | done | congruence | done].
Qed.

Lemma download_audio_no_stream_witness :
  let video_only := {| itag := 137; s_audio_type := false; is_progressive := false;
                       abr := None; resolution := Some 1080;
                       default_stem := py "talk"; default_suffix := py ".mp4";
                       s_download := Ok (py "v") |} in
  let pf := {| yt_construct := fun _ => Ok tt;
               yt_fetch := fun _ => Ok [video_only];
               ffmpeg_run := fun input => inl input |} in
  let self := {| VideoDownloader.output_dir := py "downloads" |} in
  exists w',
    VideoDownloader.download_audio pf self (py "https://youtu.be/dQw4w9WgXcQ")
      (World ∅ ∅ ∅ [] 0 None) = (Ok None, w')
    /\ w_files w' = ∅.
Proof.
  intros video_only pf self.
  destruct (download_audio_no_stream pf self (py "https://youtu.be/dQw4w9WgXcQ")
              (World ∅ ∅ ∅ [] 0 None) [video_only] eq_refl)
    as (w1 & w' & _ & Hrun & Hfiles & _).
  - left. repeat split; reflexivity.
  - exists w'. split; [exact Hrun | exact Hfiles].
Defined.

(** * Further properties *)

(** ** The resolver: what it returns and when it fails *)

(** X1: every identifier [get_video_id] returns has exactly eleven
    characters, all of them letters, digits, [_] or [-]. *)
Theorem get_video_id_returns_identifier (url id : str) :
  get_video_id url = Ok id -> is_video_id id = true.
Proof.
  rewrite get_video_id_leftmost.
  destruct (leftmost_group url) as [g|] eqn:Hg.
  - intros [= <-]. by eapply leftmost_group_is_id.
  - destruct (re_search pattern_short url) as [m|] eqn:Hm; [|done].
    apply re_search_short_marker in Hm as [g Hg']. congruence.
Qed.

Lemma get_video_id_returns_identifier_witness :
  get_video_id (py "https://www.youtube.com/embed/dQw4w9WgXcQ?rel=0")
  = Ok (py "dQw4w9WgXcQ")
  /\ is_video_id (py "dQw4w9WgXcQ") = true.
Proof.
  split; [reflexivity|].
  apply (get_video_id_returns_identifier
           (py "https://www.youtube.com/embed/dQw4w9WgXcQ?rel=0")).
  reflexivity.
Defined.

(** X2: [get_video_id] raises its [ValueError] exactly when no position of
    the URL has a [/] or a [v=] directly followed by eleven identifier
    characters. *)
Theorem get_video_id_fails_iff_no_marker (url : str) :
  get_video_id url = Raise invalid_url_error
  <-> no_marker_before (length url) url = true.
Proof.
  rewrite get_video_id_leftmost, <- leftmost_group_None.
  destruct (leftmost_group url) as [g|] eqn:Hg.
  - split; done.
  - destruct (re_search pattern_short url) as [m|] eqn:Hm; [|done].
    apply re_search_short_marker in Hm as [g Hg']. congruence.
Qed.

(** X3: the second pattern never decides: wherever it matches, the first
    pattern matches too, so the list of patterns gives what the first
    pattern alone gives. *)
Theorem second_pattern_redundant (url : str) :
  first_match patterns url = first_match [pattern_v] url.
Proof.
  unfold patterns. cbn [first_match].
  destruct (re_search pattern_v url) as [m|] eqn:Hv; [done|].
  destruct (re_search pattern_short url) as [m|] eqn:Hs; [|done].
  apply re_search_short_marker in Hs as [g Hg].
  rewrite <- re_search_v, Hv in Hg. done.
Qed.

(** ** The Caption Retriever: outcomes of [fetch_transcript] *)

Section FetchTranscript.

Import TranscriptFetcher.
Variable svc : services.

Ltac run_fetch :=
unfold fetch_transcript, try_except, mbind, M_bind, mret, M_ret, net, lift,
  print, write_text, write_text_in;
cbn -[py get_video_id select_transcript format_transcript dir_exists dirname].

Ltac fetch_step :=
cbn -[py get_video_id select_transcript format_transcript dir_exists dirname].

Ltac fetch_done :=
eexists _, _; split; [reflexivity|]; cbn -[py format_transcript];
split; [lia | reflexivity].

(** Every run of [fetch_transcript], stage by stage. *)
Lemma fetch_transcript_outcome (self : t) (url : str) (output_path : option str)
  (w : world) :
exists r w',
  fetch_transcript svc self url output_path w = (Ok r, w')
  /\ (w_net_calls w <= w_net_calls w' <= w_net_calls w + 2)%nat
  /\ match r with
     | None => w_files w' = w_files w
     | Some (text, language) =>
         match output_path with
         | Some path =>
             w_files w'
             = <[path := py "Language: " ++ language ++ [nl; nl] ++ text]>
                 (w_files w)
         | None => w_files w' = w_files w
         end
     end.
Proof.
run_fetch.
destruct (get_video_id url) as [video_id|e] eqn:Hid; fetch_step;
  [|fetch_done].
destruct (list_transcripts svc video_id) as [tl|e] eqn:Htl; fetch_step;
  [|fetch_done].
destruct (select_transcript tl) as [tr|e] eqn:Hsel; fetch_step;
  [|fetch_done].
destruct (t_fetch tr) as [cues|e] eqn:Hcues; fetch_step; [|fetch_done].
destruct output_path as [path|]; fetch_step; [|fetch_done].
destruct (dir_exists (dirname path) _); fetch_step; fetch_done.
Qed.

End FetchTranscript.

(** X4: [fetch_transcript] never raises: whatever fails inside is reported
    and it returns [None], and then no file has been written; it makes at
    most two network calls. *)
Theorem fetch_transcript_never_raises (svc : services)
    (self : TranscriptFetcher.t) (url : str) (output_path : option str)
    (w : world) :
  exists r w',
    TranscriptFetcher.fetch_transcript svc self url output_path w = (Ok r, w')
    /\ (w_net_calls w <= w_net_calls w' <= w_net_calls w + 2)%nat
    /\ (r = None -> w_files w' = w_files w).
Proof.
  destruct (fetch_transcript_outcome svc self url output_path w)
    as (r & w' & Hrun & Hnet & Hfiles).
  exists r, w'. split; [exact Hrun|]. split; [exact Hnet|].
  intros ->. exact Hfiles.
Qed.

(** X5: whenever [fetch_transcript] returns a transcript and was given an
    output path, the file at that path holds the line [Language: <code>], a
    blank line, and exactly the text that is returned; no other file is
    touched. *)
Theorem fetch_transcript_file_matches_result (svc : services)
    (self : TranscriptFetcher.t) (url path text language : str) (w w' : world) :
  TranscriptFetcher.fetch_transcript svc self url (Some path) w
  = (Ok (Some (text, language)), w') ->
  w_files w' !! path = Some (py "Language: " ++ language ++ [nl; nl] ++ text)
  /\ forall other, other ≠ path -> w_files w' !! other = w_files w !! other.
Proof.
  intros Hrun.
  destruct (fetch_transcript_outcome svc self url (Some path) w)
    as (r & w1 & Hrun' & _ & Hfiles).
  rewrite Hrun in Hrun'. injection Hrun' as <- <-.
  rewrite Hfiles. split; [apply lookup_insert_eq|].
  intros other Hne. by apply lookup_insert_ne.
Qed.

(** X6: a URL the resolver rejects costs no network call: [fetch_transcript]
    returns [None], reports the resolver's message first, and writes
    nothing. *)
Theorem fetch_transcript_invalid_url (svc : services)
    (self : TranscriptFetcher.t) (url : str) (output_path : option str)
    (w : world) (e : exn) :
  get_video_id url = Raise e ->
  exists w',
    TranscriptFetcher.fetch_transcript svc self url output_path w = (Ok None, w')
    /\ w_net_calls w' = w_net_calls w
    /\ w_files w' = w_files w
    /\ exists rest,
        w_stdout w'
        = w_stdout w ++ (py "Error fetching transcript: " ++ exn_msg e) :: rest.
Proof.
  intros Hid.
  unfold TranscriptFetcher.fetch_transcript, try_except, mbind, M_bind, mret,
    M_ret, lift, print.
  rewrite Hid. cbn -[py]. eexists. split; [reflexivity|].
  split; [reflexivity|]. split; [reflexivity|].
  eexists. rewrite <- !app_assoc. cbn -[py]. reflexivity.
Qed.

Lemma fetch_transcript_file_matches_result_witness :
  let en := {| language_code := py "en"; is_generated := true;
               t_fetch := Ok [py "never gonna"; py "give you up"] |} in
  let svc :=
    {| list_transcripts := fun id =>
         Ok {| tl_video_id := id; manually_created_transcripts := ∅;
               generated_transcripts := {[ py "en" := en ]} |};
       requests_post := fun _ => Raise (mk_exn LibraryError []) |} in
  let self := {| TranscriptFetcher.output_dir := py "transcripts";
                 TranscriptFetcher.deepseek_api_key := py "sk-1" |} in
  let w := World ∅ {[ py "notes.txt" := py "keep" ]} ∅ [] 0 None in
  let w' := (TranscriptFetcher.fetch_transcript svc self
               (py "https://youtu.be/dQw4w9WgXcQ") (Some (py "t.txt")) w).2 in
  w_files w' !! py "t.txt"
  = Some (py "Language: en" ++ [nl; nl] ++ py "never gonna" ++ [nl] ++ py "give you up")
  /\ w_files w' !! py "notes.txt" = Some (py "keep").
Proof.
  intros en svc self w w'.
  destruct (fetch_transcript_file_matches_result svc self
              (py "https://youtu.be/dQw4w9WgXcQ") (py "t.txt")
              (py "never gonna" ++ [nl] ++ py "give you up") (py "en") w w')
    as [Hfile Hother].
  - vm_compute. reflexivity.
  - split; [exact Hfile|]. rewrite Hother; [reflexivity | discriminate].
Defined.

Lemma fetch_transcript_invalid_url_witness :
  let svc := {| list_transcripts := fun _ => Raise (mk_exn LibraryError []);
                requests_post := fun _ => Raise (mk_exn LibraryError []) |} in
  let self := {| TranscriptFetcher.output_dir := py "transcripts";
                 TranscriptFetcher.deepseek_api_key := py "sk-1" |} in
  get_video_id (py "https://example.com/video") = Raise invalid_url_error
  /\ exists w',
      TranscriptFetcher.fetch_transcript svc self (py "https://example.com/video")
        (Some (py "t.txt")) (World ∅ ∅ ∅ [] 0 None) = (Ok None, w')
      /\ w_net_calls w' = 0%nat /\ w_files w' = ∅.
Proof.
  intros svc self. split; [reflexivity|].
  destruct (fetch_transcript_invalid_url svc self (py "https://example.com/video")
              (Some (py "t.txt")) (World ∅ ∅ ∅ [] 0 None) invalid_url_error
              eq_refl) as (w' & Hrun & Hnet & Hfiles & _).
  exists w'. split; [exact Hrun|]. split; [exact Hnet | exact Hfiles].
Defined.

(** ** The Caption Retriever: which track is selected *)

Section SelectTranscript.

Lemma find_transcript_skips (dicts : list (gmap str Transcript))
  (before after : list str) (code : str) :
(forall c, c ∈ before -> lookup_dicts c dicts = None) ->
_find_transcript (before ++ code :: after) dicts
= match lookup_dicts code dicts with
  | Some t => Ok t
  | None => _find_transcript after dicts
  end.
Proof.
induction before as [|c before IH]; intros Hbefore; [done|].
cbn [app _find_transcript].
rewrite (Hbefore c) by (apply elem_of_cons; by left).
apply IH. intros c' Hc'. apply Hbefore, elem_of_cons. by right.
Qed.

Lemma find_transcript_raises (dicts : list (gmap str Transcript))
  (codes : list str) :
(exists e, _find_transcript codes dicts = Raise e)
<-> forall c, c ∈ codes -> lookup_dicts c dicts = None.
Proof.
induction codes as [|c codes IH]; cbn [_find_transcript].
- split; [by intros _ c ?%elem_of_nil | by eexists].
- destruct (lookup_dicts c dicts) as [t|] eqn:Hc.
  + split; [by intros [e ?]|]. intros H.
    specialize (H c (list_elem_of_here _ _)). congruence.
  + rewrite IH. split.
    * intros H c' [->|Hc']%elem_of_cons; [done | by apply H].
    * intros H c' Hc'. apply H, elem_of_cons. by right.
Qed.

Lemma lookup_two_dicts (c : str) (manual generated : gmap str Transcript) :
lookup_dicts c [manual; generated]
= match manual !! c with Some t => Some t | None => generated !! c end.
Proof. cbn. destruct (manual !! c); [done|]. by destruct (generated !! c). Qed.

End SelectTranscript.

(** X7: the track [fetch_transcript] selects is that of the first language
    of [en, ar, es, fr, de, it] for which the video has any track, the
    human-authored one if that language has both. *)
Theorem select_transcript_preference (tl : TranscriptList)
    (before after : list str) (code : str) :
  TranscriptFetcher.preferred_languages = before ++ code :: after ->
  (forall c, c ∈ before ->
             manually_created_transcripts tl !! c = None
             /\ generated_transcripts tl !! c = None) ->
  is_Some (manually_created_transcripts tl !! code)
  \/ is_Some (generated_transcripts tl !! code) ->
  exists t,
    TranscriptFetcher.select_transcript tl = Ok t
    /\ (manually_created_transcripts tl !! code = Some t
        \/ (manually_created_transcripts tl !! code = None
            /\ generated_transcripts tl !! code = Some t)).
Proof.
  intros Hpref Hbefore Hcode.
  change (TranscriptFetcher.select_transcript tl)
    with (_find_transcript TranscriptFetcher.preferred_languages
            [manually_created_transcripts tl; generated_transcripts tl]).
  rewrite Hpref, find_transcript_skips.
  - rewrite lookup_two_dicts.
    destruct (manually_created_transcripts tl !! code) as [t|] eqn:Hm.
    + exists t. split; [done | by left].
    + destruct Hcode as [[t Ht]|[t Ht]]; [done|].
      rewrite Ht. exists t. split; [done | by right].
  - intros c Hc. rewrite lookup_two_dicts.
    destruct (Hbefore c Hc) as [-> ->]. done.
Qed.

Lemma select_transcript_preference_witness :
  let fr_auto := {| language_code := py "fr"; is_generated := true;
                    t_fetch := Ok [py "bonjour"] |} in
  let de_manual := {| language_code := py "de"; is_generated := false;
                      t_fetch := Ok [py "hallo"] |} in
  let tl := {| tl_video_id := py "dQw4w9WgXcQ";
               manually_created_transcripts := {[ py "de" := de_manual ]};
               generated_transcripts := {[ py "fr" := fr_auto ]} |} in
  TranscriptFetcher.select_transcript tl = Ok fr_auto.
Proof.
  intros fr_auto de_manual tl.
  destruct (select_transcript_preference tl [py "en"; py "ar"; py "es"]
              [py "de"; py "it"] (py "fr") eq_refl) as (t & Hsel & Hwhich).
  - intros c Hc.
    repeat (apply elem_of_cons in Hc as [->|Hc]; [split; reflexivity|]).
    by apply elem_of_nil in Hc.
  - right. by eexists.
  - destruct Hwhich as [Hm | [_ Hg]]; [discriminate Hm|].
    rewrite Hsel. cut (Some t = Some fr_auto); [congruence|].
    rewrite <- Hg. reflexivity.
Defined.

(** X8: the selection fails exactly when the video has no track, of either
    kind, in any of the six languages; tracks in other languages do not
    count. *)
Theorem select_transcript_fails_iff (tl : TranscriptList) :
  (exists e, TranscriptFetcher.select_transcript tl = Raise e)
  <-> forall c, c ∈ TranscriptFetcher.preferred_languages ->
                manually_created_transcripts tl !! c = None
                /\ generated_transcripts tl !! c = None.
Proof.
  change (TranscriptFetcher.select_transcript tl)
    with (_find_transcript TranscriptFetcher.preferred_languages
            [manually_created_transcripts tl; generated_transcripts tl]).
  rewrite find_transcript_raises. split.
  - intros H c Hc. specialize (H c Hc). rewrite lookup_two_dicts in H.
    destruct (manually_created_transcripts tl !! c); [done|]. done.
  - intros H c Hc. rewrite lookup_two_dicts.
    destruct (H c Hc) as [-> ->]. done.
Qed.

(** ** The Summarization Client: failures and effects *)

(** X9: whatever the remote side answers, [summarize_text] makes exactly
    one network call and changes no file, no directory and no environment
    variable. *)
Theorem summarize_text_one_call_no_files (svc : services)
    (self : TranscriptFetcher.t) (transcript language : str) (w : world) :
  let w' := (TranscriptFetcher.summarize_text svc self transcript language w).2 in
  w_net_calls w' = S (w_net_calls w)
  /\ w_files w' = w_files w /\ w_dirs w' = w_dirs w /\ w_env w' = w_env w.
Proof.
  unfold TranscriptFetcher.summarize_text, try_except, mbind, M_bind, mret,
    M_ret, net, lift, print, raise.
  cbn -[TranscriptFetcher.data py TranscriptFetcher.parse_reply].
  destruct (requests_post svc _) as [resp|e];
    cbn -[py TranscriptFetcher.parse_reply].
  - destruct (raise_for_status resp) as [[]|e];
      cbn -[py TranscriptFetcher.parse_reply].
    + destruct (json_content resp) as [content|e];
        cbn -[py TranscriptFetcher.parse_reply]; [done|].
      by destruct (exn_response e) as [[body|]|].
    + by destruct (exn_response e) as [[body|]|].
  - by destruct (exn_response e) as [[body|]|].
Qed.

(** X10: on a 4xx or 5xx answer [summarize_text] returns [None] and prints
    two lines, the status error and then the body of the answer; the reply
    is not parsed. *)
Theorem summarize_text_http_error (svc : services) (self : TranscriptFetcher.t)
    (transcript language : str) (w : world) (resp : response) :
  requests_post svc (TranscriptFetcher.data self transcript language) = Ok resp ->
  (400 <= status_code resp < 600) ->
  exists w',
    TranscriptFetcher.summarize_text svc self transcript language w = (Ok None, w')
    /\ w_stdout w'
       = w_stdout w ++ [py "Error in summarization: " ++ status_message resp;
                        py "API Response: " ++ text resp].
Proof.
  intros Hpost [Hlo Hhi].
  unfold TranscriptFetcher.summarize_text, try_except, mbind, M_bind, mret,
    M_ret, net, lift, print, raise_for_status.
  rewrite Hpost. cbn -[py TranscriptFetcher.parse_reply].
  apply N.leb_le in Hlo. apply N.ltb_lt in Hhi. rewrite Hlo, Hhi.
  cbn -[py]. eexists. split; [reflexivity|]. cbn -[py].
  by rewrite <- app_assoc.
Qed.

Lemma summarize_text_http_error_witness :
  let resp := {| status_code := 401; text := py "{invalid key}";
                 status_message := py "401 Client Error: Unauthorized";
                 json_content := Raise (mk_exn LibraryError []) |} in
  let svc := {| list_transcripts := fun _ => Raise (mk_exn LibraryError []);
                requests_post := fun _ => Ok resp |} in
  let self := {| TranscriptFetcher.output_dir := py "transcripts";
                 TranscriptFetcher.deepseek_api_key := py "sk-bad" |} in
  exists w',
    TranscriptFetcher.summarize_text svc self (py "text") (py "en")
      (World ∅ ∅ ∅ [] 0 None) = (Ok None, w')
    /\ w_stdout w' = [py "Error in summarization: 401 Client Error: Unauthorized";
                      py "API Response: {invalid key}"].
Proof.
  intros resp svc self.
  apply (summarize_text_http_error svc self (py "text") (py "en")
           (World ∅ ∅ ∅ [] 0 None) resp eq_refl).
  split; [by apply N.leb_le | by apply N.ltb_lt].
Defined.

(** X11: an exception whose [response] attribute is [None] (a connection
    error of the HTTP library) makes the handler of [summarize_text] itself
    fail: [summarize_text] raises [AttributeError] instead of returning
    [None], and [process_transcript] passes it on without writing a file. *)
Theorem summarize_text_handler_raises (svc : services)
    (self : TranscriptFetcher.t) (transcript language summary_path : str)
    (w : world) (e : exn) :
  requests_post svc (TranscriptFetcher.data self transcript language) = Raise e ->
  exn_response e = Some None ->
  (exists w',
     TranscriptFetcher.summarize_text svc self transcript language w
     = (Raise (mk_exn AttributeError (py "'NoneType' object has no attribute 'text'")),
        w'))
  /\ exists w',
      TranscriptFetcher.process_transcript svc self (transcript, language)
        summary_path w
      = (Raise (mk_exn AttributeError (py "'NoneType' object has no attribute 'text'")),
         w')
      /\ w_files w' = w_files w.
Proof.
  intros Hpost Hresp. split.
  - unfold TranscriptFetcher.summarize_text, try_except, mbind, M_bind, mret,
      M_ret, net, lift, print, raise.
    rewrite Hpost. cbn -[py]. rewrite Hresp. eexists. reflexivity.
  - unfold TranscriptFetcher.process_transcript,
      TranscriptFetcher.summarize_text, try_except, mbind, M_bind, mret,
      M_ret, net, lift, print, raise.
    cbn -[py TranscriptFetcher.data]. rewrite Hpost. cbn -[py]. rewrite Hresp.
    eexists. split; reflexivity.
Qed.

Lemma summarize_text_handler_raises_witness :
  let e := Exn LibraryError (py "Connection refused") (Some None) in
  let svc := {| list_transcripts := fun _ => Raise (mk_exn LibraryError []);
                requests_post := fun _ => Raise e |} in
  let self := {| TranscriptFetcher.output_dir := py "transcripts";
                 TranscriptFetcher.deepseek_api_key := py "sk-1" |} in
  exists w',
    TranscriptFetcher.summarize_text svc self (py "text") (py "en")
      (World ∅ ∅ ∅ [] 0 None)
    = (Raise (mk_exn AttributeError (py "'NoneType' object has no attribute 'text'")),
       w').
Proof.
  intros e svc self.
  apply (summarize_text_handler_raises svc self (py "text") (py "en") (py "out.txt")
           (World ∅ ∅ ∅ [] 0 None) e eq_refl eq_refl).
Defined.

(** ** The reply parser: repeated labels, stripped values, single lines *)

Section ParserMore.

Import TranscriptFetcher.

(** After the loop a field holds the value of the last section that carries
  its label. *)
Lemma foldl_field_last {V} (field : analysis -> option V) (label : str)
  (value : str -> V) :
(forall d s, field (parse_section d s)
             = if startswith label s then Some (value s) else field d) ->
forall sections d,
  field (foldl parse_section d sections)
  = match last (List.filter (startswith label) sections) with
    | Some s => Some (value s)
    | None => field d
    end.
Proof.
intros Hstep sections. induction sections as [|s sections IH]; intros d.
- reflexivity.
- cbn [foldl List.filter]. rewrite IH, Hstep.
  destruct (startswith label s); [|done].
  rewrite last_cons.
  by destruct (last (List.filter (startswith label) sections)).
Qed.

Lemma not_elem_of_rev (c : char) (l : str) : c ∉ l -> c ∉ rev l.
Proof.
intros Hc Hin. apply Hc. apply list_elem_of_In, in_rev.
by apply list_elem_of_In.
Qed.

Lemma split_nl_pieces (s cur : str) :
nl ∉ cur -> Forall (fun piece => nl ∉ piece) (split_go [nl] 0 cur s).
Proof.
revert cur. induction s as [|c s IH]; intros cur Hcur.
- cbn. constructor; [by apply not_elem_of_rev | constructor].
- cbn [split_go startswith length Nat.pred]. rewrite andb_true_r.
  destruct (N.eqb_spec c nl) as [->|Hne].
  + constructor; [by apply not_elem_of_rev | apply IH, not_elem_of_nil].
  + apply IH. intros [?|?]%elem_of_cons; congruence.
Qed.

Lemma strip_by_no_new_char (p : char -> bool) (s : str) (c : char) :
c ∉ s -> c ∉ strip_by p s.
Proof.
destruct (strip_by_decomp p s) as (pre & post & E & _ & _).
intros Hc Hin. apply Hc. rewrite E, !elem_of_app. tauto.
Qed.

End ParserMore.

(** X12: when a label occurs in several sections of the reply, the last of
    them wins: each field of the record is the value of the last section
    that starts with its label. *)
Theorem parse_reply_last_section_wins (content : str) :
  let sections := split [nl; nl] content in
  let d := TranscriptFetcher.parse_reply content in
  let last_with label := last (List.filter (startswith (py label)) sections) in
  abstract d
  = (fun s => strip (replace (py "ABSTRACT:") [] s)) <$> last_with "ABSTRACT:"
  /\ key_concepts d = TranscriptFetcher.concepts_of <$> last_with "KEY CONCEPTS:"
  /\ category d
     = (fun s => strip (replace (py "CATEGORY:") [] s)) <$> last_with "CATEGORY:"
  /\ summary d
     = (fun s => strip (replace (py "SUMMARY:") [] s)) <$> last_with "SUMMARY:".
Proof.
  cbv zeta. unfold TranscriptFetcher.parse_reply.
  rewrite (foldl_field_last abstract _ _ abstract_parse_section).
  rewrite (foldl_field_last key_concepts _ _ key_concepts_parse_section).
  rewrite (foldl_field_last category _ _ category_parse_section).
  rewrite (foldl_field_last summary _ _ summary_parse_section).
  repeat split;
    match goal with |- context [last ?l] => by destruct (last l) end.
Qed.

(** X13: the abstract, the category and the summary of the record never
    start or end with white space. *)
Theorem parse_reply_values_stripped (content v : str) :
  let d := TranscriptFetcher.parse_reply content in
  abstract d = Some v \/ category d = Some v \/ summary d = Some v ->
  (forall c, head v = Some c -> isspace c = false)
  /\ (forall c, last v = Some c -> isspace c = false).
Proof.
  cbv zeta. unfold TranscriptFetcher.parse_reply.
  rewrite (foldl_field_last abstract _ _ abstract_parse_section).
  rewrite (foldl_field_last category _ _ category_parse_section).
  rewrite (foldl_field_last summary _ _ summary_parse_section).
  intros [H|[H|H]];
    match type of H with
    | match ?o with _ => _ end = _ => destruct o; [|done]
    end; injection H as <-;
    (split; [apply strip_by_head | apply strip_by_last]).
Qed.

Lemma parse_reply_values_stripped_witness :
  let content := py "CATEGORY:" ++ [nl] ++ py "   Logic and proofs  " ++ [nl] in
  category (TranscriptFetcher.parse_reply content) = Some (py "Logic and proofs")
  /\ (forall c, head (py "Logic and proofs") = Some c -> isspace c = false)
  /\ (forall c, last (py "Logic and proofs") = Some c -> isspace c = false).
Proof.
  intros content. split; [vm_compute; reflexivity|].
  apply (parse_reply_values_stripped content). right. left.
  vm_compute. reflexivity.
Defined.

(** X14: every key concept of the record is a single line: it contains no
    newline. *)
Theorem key_concepts_single_lines (content : str) (concepts : list str) :
  key_concepts (TranscriptFetcher.parse_reply content) = Some concepts ->
  Forall (fun concept => nl ∉ concept) concepts.
Proof.
  unfold TranscriptFetcher.parse_reply.
  rewrite (foldl_field_last key_concepts _ _ key_concepts_parse_section).
  destruct (last _) as [section|]; [|done]. intros [= <-].
  unfold TranscriptFetcher.concepts_of. apply Forall_map.
  assert (Forall (fun piece => nl ∉ piece) (split [nl] section)) as Hlines
    by apply split_nl_pieces, not_elem_of_nil.
  assert (Forall (fun piece => nl ∉ piece) (tail (split [nl] section))) as Htail
    by (destruct (split [nl] section); [done | by inversion Hlines]).
  induction (tail (split [nl] section)) as [|line lines IH]; [constructor|].
  inversion Htail as [|? ? Hline Hlines']; subst. cbn [List.filter].
  destruct (truthy (strip line)); [|by apply IH].
  constructor; [|by apply IH].
  by apply strip_by_no_new_char, strip_by_no_new_char.
Qed.

Lemma key_concepts_single_lines_witness :
  let content := py "KEY CONCEPTS:" ++ [nl] ++ bullet :: py " induction" ++ [nl]
                 ++ bullet :: py " rewriting" in
  key_concepts (TranscriptFetcher.parse_reply content)
  = Some [py "induction"; py "rewriting"]
  /\ Forall (fun concept => nl ∉ concept) [py "induction"; py "rewriting"].
Proof.
  intros content. split; [vm_compute; reflexivity|].
  apply (key_concepts_single_lines content). vm_compute. reflexivity.
Defined.

(** ** [process_transcript]: what it writes and what it leaves alone *)

Section ProcessMore.

Import TranscriptFetcher.
Variable svc : services.

Lemma parse_unlabelled (sections : list str) (d : analysis) :
Forall (fun s => startswith (py "ABSTRACT:") s = false
                 /\ startswith (py "KEY CONCEPTS:") s = false
                 /\ startswith (py "CATEGORY:") s = false
                 /\ startswith (py "SUMMARY:") s = false) sections ->
foldl parse_section d sections = d.
Proof.
induction 1 as [|s sections (HA & HK & HC & HS) _ IH]; [done|].
cbn [foldl]. unfold parse_section at 2. by rewrite HA, HK, HC, HS.
Qed.

Lemma process_transcript_files (self : t) (transcript language summary_path : str)
  (w : world) (other : str) :
other ≠ summary_path ->
w_files (process_transcript svc self (transcript, language) summary_path w).2
  !! other
= w_files w !! other.
Proof.
intros Hne.
unfold process_transcript, try_except, mbind, M_bind, mret, M_ret, print.
cbn -[summarize_text py write_analysis].
match goal with
| |- context [summarize_text svc self transcript language ?w0] =>
    pose proof (summarize_text_files svc self transcript language w0) as Hf;
    destruct (summarize_text svc self transcript language w0) as [[[d|]|e] w1]
end; cbn -[py write_analysis] in *; [|by rewrite Hf..].
destruct (dict_truthy d); cbn -[py write_analysis]; [|by rewrite Hf].
destruct (touches_only_write_analysis summary_path language d w1)
  as (r & files & -> & Hfiles).
destruct r as [[]|e]; cbn -[py].
- rewrite for_each_print. cbn -[py]. by rewrite Hfiles, Hf.
- by rewrite Hfiles, Hf.
Qed.

End ProcessMore.

(** X15: [process_transcript] changes no file but the analysis file: every
    other path, the transcript file among them, keeps its content whether
    the summarization succeeds or not. *)
Theorem process_transcript_only_summary_path (svc : services)
    (self : TranscriptFetcher.t) (transcript language summary_path other : str)
    (w : world) :
  other ≠ summary_path ->
  w_files (TranscriptFetcher.process_transcript svc self (transcript, language)
             summary_path w).2 !! other
  = w_files w !! other.
Proof.
  intros Hne. by apply process_transcript_files.
Qed.

Lemma process_transcript_only_summary_path_witness :
  let reply := py "ABSTRACT:" ++ [nl] ++ py "A talk about proofs." in
  let svc :=
    {| list_transcripts := fun _ => Raise (mk_exn LibraryError []);
       requests_post := fun _ =>
         Ok {| status_code := 200; text := []; status_message := [];
               json_content := Ok reply |} |} in
  let self := {| TranscriptFetcher.output_dir := py "transcripts";
                 TranscriptFetcher.deepseek_api_key := py "sk-1" |} in
  let w := World ∅ {[ py "t.txt" := py "Language: en" ]} ∅ [] 0 None in
  let w' := (TranscriptFetcher.process_transcript svc self (py "text", py "en")
               (py "a.txt") w).2 in
  is_Some (w_files w' !! py "a.txt")
  /\ w_files w' !! py "t.txt" = Some (py "Language: en").
Proof.
  intros reply svc self w w'. split; [vm_compute; by eexists|].
  unfold w'.
  rewrite (process_transcript_only_summary_path svc self (py "text") (py "en")
             (py "a.txt") (py "t.txt") w); [reflexivity | discriminate].
Defined.

(** X16: a reply in which no section starts with one of the four labels
    gives the empty record, which [process_transcript] takes for a failure:
    it prints [Failed to generate summary.] and writes no file. *)
Theorem process_transcript_unlabelled_reply (svc : services)
    (self : TranscriptFetcher.t) (transcript language summary_path : str)
    (w : world) (resp : response) (content : str) :
  requests_post svc (TranscriptFetcher.data self transcript language) = Ok resp ->
  raise_for_status resp = Ok tt ->
  json_content resp = Ok content ->
  Forall (fun s => startswith (py "ABSTRACT:") s = false
                   /\ startswith (py "KEY CONCEPTS:") s = false
                   /\ startswith (py "CATEGORY:") s = false
                   /\ startswith (py "SUMMARY:") s = false)
         (split [nl; nl] content) ->
  TranscriptFetcher.parse_reply content = empty_dict
  /\ exists w',
      TranscriptFetcher.process_transcript svc self (transcript, language)
        summary_path w = (Ok tt, w')
      /\ w_files w' = w_files w
      /\ last (w_stdout w') = Some (py "Failed to generate summary.").
Proof.
  intros Hpost Hstatus Hjson Hnone.
  assert (TranscriptFetcher.parse_reply content = empty_dict) as Hempty
    by (by apply parse_unlabelled).
  split; [exact Hempty|].
  unfold TranscriptFetcher.process_transcript, TranscriptFetcher.summarize_text,
    try_except, mbind, M_bind, mret, M_ret, net, lift, print.
  cbn -[py TranscriptFetcher.data TranscriptFetcher.parse_reply].
  rewrite Hpost. cbn -[py TranscriptFetcher.parse_reply].
  rewrite Hstatus. cbn -[py TranscriptFetcher.parse_reply].
  rewrite Hjson. cbn -[py TranscriptFetcher.parse_reply].
  rewrite Hempty. cbn -[py].
  eexists. split; [reflexivity|]. split; [reflexivity|].
  cbn -[py]. apply last_snoc.
Qed.

Lemma process_transcript_unlabelled_reply_witness :
  let reply := py "**Abstract**" ++ [nl] ++ py "A talk." ++ [nl; nl]
               ++ py "Summary: it was about proofs." in
  let resp := {| status_code := 200; text := []; status_message := [];
                 json_content := Ok reply |} in
  let svc := {| list_transcripts := fun _ => Raise (mk_exn LibraryError []);
                requests_post := fun _ => Ok resp |} in
  let self := {| TranscriptFetcher.output_dir := py "transcripts";
                 TranscriptFetcher.deepseek_api_key := py "sk-1" |} in
  exists w',
    TranscriptFetcher.process_transcript svc self (py "text", py "en")
      (py "a.txt") (World ∅ ∅ ∅ [] 0 None) = (Ok tt, w')
    /\ w_files w' = ∅.
Proof.
  intros reply resp svc self.
  destruct (process_transcript_unlabelled_reply svc self (py "text") (py "en")
              (py "a.txt") (World ∅ ∅ ∅ [] 0 None) resp reply
              eq_refl eq_refl eq_refl) as (_ & w' & Hrun & Hfiles & _).
  - vm_compute. repeat constructor.
  - exists w'. split; [exact Hrun | exact Hfiles].
Defined.

(** ** [main] of the caption pipeline *)

Section FetcherMain.

Import TranscriptFetcher.
Variable svc : services.

Ltac run_main :=
unfold main, process_transcript, fetch_transcript, __init__, try_except,
  mbind, M_bind, mret, M_ret, net, lift, print, write_text, write_text_in,
  read_file, mkdir, getenv, raise;
cbn -[analysis_text parse_reply data py summarize_text get_video_id
      select_transcript format_transcript path_join strip dir_exists
      dirname write_analysis].

Ltac main_step H :=
rewrite H;
cbn -[analysis_text parse_reply data py summarize_text get_video_id
      select_transcript format_transcript path_join strip dir_exists
      dirname write_analysis].


(** X18: without a [url.txt], [main] prints the one line that asks for the
  file and does nothing else: no directory, no file, no network call. *)
Theorem main_missing_url_file (w : world) :
w_files w !! py "url.txt" = None ->
main svc w
= (Ok tt,
   World (w_env w) (w_files w) (w_dirs w)
     (w_stdout w ++ [py "Error: url.txt file not found. Please create a url.txt file with the YouTube URL."])
     (w_net_calls w) (w_fmt_streams w)).
Proof. intros Hurl. run_main. main_step Hurl. reflexivity. Qed.

(** X19: with a [url.txt] that is empty or holds white space only, [main]
  prints [Error: url.txt is empty] and does nothing else: the client is
  not constructed, so no directory is made and the token is not looked
  up. *)
Theorem main_blank_url_file (w : world) (contents : str) :
w_files w !! py "url.txt" = Some contents ->
strip contents = [] ->
main svc w
= (Ok tt,
   World (w_env w) (w_files w) (w_dirs w)
     (w_stdout w ++ [py "Error: url.txt is empty"])
     (w_net_calls w) (w_fmt_streams w)).
Proof. intros Hurl Hblank. run_main. main_step Hurl. main_step Hblank. reflexivity. Qed.

(** X20: with a token but a URL the resolver rejects, [main] makes the
  output directory, reports [Invalid YouTube URL format] and stops: no
  network call, no file. *)
Theorem main_invalid_url (w : world) (contents key : str) :
w_files w !! py "url.txt" = Some contents ->
truthy (strip contents) = true ->
w_env w !! "DEEPSEEK_API_KEY" = Some key ->
truthy key = true ->
get_video_id (strip contents) = Raise invalid_url_error ->
main svc w
= (Ok tt,
   World (w_env w) (w_files w) ({[py "transcripts"]} ∪ w_dirs w)
     (w_stdout w ++ [py "Processing URL: " ++ strip contents;
                     py "An error occurred: Invalid YouTube URL format"])
     (w_net_calls w) (w_fmt_streams w)).
Proof.
intros Hurl Hnonempty Hkey Hkey' Hid. run_main.
main_step Hurl. main_step Hnonempty. main_step dir_exists_transcripts.
main_step Hkey. main_step Hkey'.
main_step Hid. by rewrite <- app_assoc.
Qed.

(** X21: when the caption service fails, [main] stops after that one
  network call: the failure is reported, no file is written and no
  summarization is requested. *)
Theorem main_caption_failure (w : world) (contents key id : str) (e : exn) :
w_files w !! py "url.txt" = Some contents ->
truthy (strip contents) = true ->
w_env w !! "DEEPSEEK_API_KEY" = Some key ->
truthy key = true ->
get_video_id (strip contents) = Ok id ->
list_transcripts svc id = Raise e ->
exists w',
  main svc w = (Ok tt, w')
  /\ w_files w' = w_files w
  /\ w_net_calls w' = S (w_net_calls w)
  /\ py "Error fetching transcript: " ++ exn_msg e ∈ w_stdout w'.
Proof.
intros Hurl Hnonempty Hkey Hkey' Hid Htl. run_main.
main_step Hurl. main_step Hnonempty. main_step dir_exists_transcripts.
main_step Hkey. main_step Hkey'.
main_step Hid. main_step Htl.
eexists. split; [reflexivity|]. split; [reflexivity|]. split; [reflexivity|].
cbn -[py]. rewrite !elem_of_app, !list_elem_of_singleton. tauto.
Qed.

(** X22: when every stage answers, the reply parses to a record with a
  field, and the transcript, its language code and the reply can be
  encoded (they hold no surrogate), [main] makes three network calls and
  writes two files next to each other, [<id>_transcript.txt] and
  [<id>_analysis.txt]. *)
Theorem main_success (w : world) (contents key id : str) (tl : TranscriptList)
  (tr : Transcript) (cues : list str) (resp : response) (content : str) :
w_files w !! py "url.txt" = Some contents ->
truthy (strip contents) = true ->
w_env w !! "DEEPSEEK_API_KEY" = Some key ->
truthy key = true ->
get_video_id (strip contents) = Ok id ->
list_transcripts svc id = Ok tl ->
select_transcript tl = Ok tr ->
t_fetch tr = Ok cues ->
requests_post svc
  (data {| output_dir := py "transcripts"; deepseek_api_key := key |}
     (format_transcript cues) (language_code tr)) = Ok resp ->
raise_for_status resp = Ok tt ->
json_content resp = Ok content ->
dict_truthy (parse_reply content) = true ->
encodable (language_code tr) = true ->
encodable (format_transcript cues) = true ->
encodable content = true ->
exists w',
  main svc w = (Ok tt, w')
  /\ w_files w'
     = <[path_join (py "transcripts") (id ++ py "_analysis.txt")
         := analysis_text (language_code tr) (parse_reply content)]>
         (<[path_join (py "transcripts") (id ++ py "_transcript.txt")
            := py "Language: " ++ language_code tr ++ [nl; nl]
               ++ format_transcript cues]> (w_files w))
  /\ w_net_calls w' = S (S (S (w_net_calls w))).
Proof.
intros Hurl Hnonempty Hkey Hkey' Hid Htl Hsel Hfetch Hpost Hstatus Hjson Hd
  Hlang _ Hcontent.
pose proof (get_video_id_is_id _ _ Hid) as Hid'.
run_main. main_step Hurl. main_step Hnonempty.
main_step dir_exists_transcripts. main_step Hkey.
main_step Hkey'. main_step Hid. main_step Htl. main_step Hsel.
main_step Hfetch. rewrite transcripts_file_dir by done.
unfold summarize_text, try_except, mbind, M_bind, mret, M_ret, net, lift.
cbn -[analysis_text parse_reply data py format_transcript path_join strip
      dir_exists dirname write_analysis].
main_step Hpost. main_step Hstatus. main_step Hjson. main_step Hd.
rewrite write_analysis_ok;
  [|by apply transcripts_file_dir | done | by apply parse_reply_encodable].
rewrite for_each_print.
cbn -[analysis_text parse_reply py format_transcript path_join strip].
eexists. split; [reflexivity|]. split; reflexivity.
Qed.

End FetcherMain.

Lemma main_missing_url_file_witness :
  let svc := {| list_transcripts := fun _ => Raise (mk_exn LibraryError []);
                requests_post := fun _ => Raise (mk_exn LibraryError []) |} in
  TranscriptFetcher.main svc (World ∅ ∅ ∅ [] 0 None)
  = (Ok tt,
     World ∅ ∅ ∅
       [py "Error: url.txt file not found. Please create a url.txt file with the YouTube URL."]
       0 None).
Proof.
  intros svc.
  apply (main_missing_url_file svc (World ∅ ∅ ∅ [] 0 None)). reflexivity.
Defined.

Lemma main_blank_url_file_witness :
  let svc := {| list_transcripts := fun _ => Raise (mk_exn LibraryError []);
                requests_post := fun _ => Raise (mk_exn LibraryError []) |} in
  let w := World ∅ {[ py "url.txt" := [sp; sp; nl] ]} ∅ [] 0 None in
  TranscriptFetcher.main svc w
  = (Ok tt,
     World ∅ {[ py "url.txt" := [sp; sp; nl] ]} ∅ [py "Error: url.txt is empty"]
       0 None).
Proof.
  intros svc w.
  apply (main_blank_url_file svc w [sp; sp; nl]); reflexivity.
Defined.

Lemma main_invalid_url_witness :
  let svc := {| list_transcripts := fun _ => Raise (mk_exn LibraryError []);
                requests_post := fun _ => Raise (mk_exn LibraryError []) |} in
  let w := World {[ "DEEPSEEK_API_KEY" := py "sk-1" ]}
                 {[ py "url.txt" := py "https://example.com/video" ]} ∅ [] 0 None in
  w_net_calls (TranscriptFetcher.main svc w).2 = 0%nat
  /\ w_files (TranscriptFetcher.main svc w).2 = w_files w.
Proof.
  intros svc w.
  rewrite (main_invalid_url svc w (py "https://example.com/video") (py "sk-1"));
    try reflexivity.
  split; reflexivity.
Defined.

Lemma main_caption_failure_witness :
  let svc := {| list_transcripts := fun _ =>
                  Raise (mk_exn LibraryError (py "Subtitles are disabled for this video"));
                requests_post := fun _ => Raise (mk_exn LibraryError []) |} in
  let w := World {[ "DEEPSEEK_API_KEY" := py "sk-1" ]}
                 {[ py "url.txt" := py "https://youtu.be/dQw4w9WgXcQ" ]} ∅ [] 0 None in
  exists w',
    TranscriptFetcher.main svc w = (Ok tt, w')
    /\ w_files w' = w_files w /\ w_net_calls w' = 1%nat.
Proof.
  intros svc w.
  destruct (main_caption_failure svc w (py "https://youtu.be/dQw4w9WgXcQ")
              (py "sk-1") (py "dQw4w9WgXcQ")
              (mk_exn LibraryError (py "Subtitles are disabled for this video")))
    as (w' & Hrun & Hfiles & Hnet & _); try reflexivity.
  exists w'. split; [exact Hrun|]. split; [exact Hfiles | exact Hnet].
Defined.

Lemma main_success_witness :
  let en := {| language_code := py "en"; is_generated := true;
               t_fetch := Ok [py "never gonna"; py "give you up"] |} in
  let reply := py "ABSTRACT:" ++ [nl] ++ py "A song." ++ [nl; nl]
               ++ py "CATEGORY:" ++ [nl] ++ py "Music" in
  let resp := {| status_code := 200; text := []; status_message := [];
                 json_content := Ok reply |} in
  let svc :=
    {| list_transcripts := fun id =>
         Ok {| tl_video_id := id; manually_created_transcripts := ∅;
               generated_transcripts := {[ py "en" := en ]} |};
       requests_post := fun _ => Ok resp |} in
  let w := World {[ "DEEPSEEK_API_KEY" := py "sk-1" ]}
                 {[ py "url.txt" := py "https://youtu.be/dQw4w9WgXcQ" ++ [nl] ]}
                 ∅ [] 0 None in
  exists w',
    TranscriptFetcher.main svc w = (Ok tt, w')
    /\ is_Some (w_files w' !! py "transcripts/dQw4w9WgXcQ_transcript.txt")
    /\ is_Some (w_files w' !! py "transcripts/dQw4w9WgXcQ_analysis.txt")
    /\ w_net_calls w' = 3%nat.
Proof.
  intros en reply resp svc w.
  destruct (main_success svc w (py "https://youtu.be/dQw4w9WgXcQ" ++ [nl])
              (py "sk-1") (py "dQw4w9WgXcQ")
              {| tl_video_id := py "dQw4w9WgXcQ"; manually_created_transcripts := ∅;
                 generated_transcripts := {[ py "en" := en ]} |}
              en [py "never gonna"; py "give you up"] resp reply)
    as (w' & Hrun & Hfiles & Hnet); try (vm_compute; reflexivity).
  exists w'. split; [exact Hrun|]. rewrite Hfiles.
  split; [|split; [|exact Hnet]].
  - rewrite lookup_insert_ne by discriminate.
    change (py "transcripts/dQw4w9WgXcQ_transcript.txt")
      with (path_join (py "transcripts") (py "dQw4w9WgXcQ" ++ py "_transcript.txt")).
    rewrite lookup_insert_eq. by eexists.
  - change (py "transcripts/dQw4w9WgXcQ_analysis.txt")
      with (path_join (py "transcripts") (py "dQw4w9WgXcQ" ++ py "_analysis.txt")).
    rewrite lookup_insert_eq. by eexists.
Defined.

(** ** [download_audio]: its outcomes *)

Section DownloadMore.

Import VideoDownloader.
Variable pf : platform.


Lemma path_str_suffix (dir stem suffix1 suffix2 : str) :
suffix1 ≠ suffix2 ->
path_str {| p_parent := dir; p_stem := stem; p_suffix := suffix1 |}
≠ path_str {| p_parent := dir; p_stem := stem; p_suffix := suffix2 |}.
Proof.
unfold path_str, path_join. cbn [p_parent p_stem p_suffix].
intros Hne H. apply app_inv_head in H. cbn [py app] in H.
injection H as H. by apply app_inv_head in H.
Qed.


(** The best audio-only stream, downloaded and converted. *)
Lemma download_audio_best_audio (self : t) (url : str) (w : world)
  (q : list Stream) (s : Stream) (content wav : str) :
yt_construct pf url = Ok tt ->
yt_fetch pf (w_net_calls w) = Ok q ->
first (desc (order_by abr (filter_only_audio q))) = Some s ->
s_download s = Ok content ->
ffmpeg_run pf content = inl wav ->
let downloaded_path :=
  {| p_parent := output_dir self; p_stem := default_stem s;
     p_suffix := default_suffix s |} in
let wav_path := with_suffix downloaded_path (py ".wav") in
exists w',
  download_audio pf self url w = (Ok (Some wav_path), w')
  /\ w_files w'
     = delete (path_str downloaded_path)
         (<[path_str wav_path := wav]>
            (<[path_str downloaded_path := content]> (w_files w)))
  /\ w_dirs w' = w_dirs w.
Proof.
intros Hnew Hfetch Hsel Hdl Hff downloaded_path wav_path.
set (w0 := World (w_env w) (w_files w) (w_dirs w) (w_stdout w)
                 (w_net_calls w) None).
pose proof (select_stream_fetched pf w0 q eq_refl Hfetch) as Hselect.
rewrite Hsel in Hselect.
destruct (download_audio_selected pf self url w _ s content wav
            Hnew Hselect Hdl Hff) as (w' & Hrun & Hfiles & Hdirs).
exists w'. split; [exact Hrun|]. split; [exact Hfiles | exact Hdirs].
Qed.

(** X24: when the audio-only stream of the highest bitrate is selected,
  downloaded and converted, the name of its file has a stem and a suffix
  other than [.wav], and neither that file nor the [.wav] file exists
  yet, [download_audio] returns a path; the file of the download with the
  suffix [.wav] in its place holds the converted audio, the downloaded
  original has been removed, and no other file is touched. *)
Theorem download_audio_converts (self : t) (url : str) (w : world)
  (q : list Stream) (s : Stream) (content wav : str) :
let downloaded := path_join (output_dir self) (default_stem s ++ default_suffix s) in
let converted := path_join (output_dir self) (default_stem s ++ py ".wav") in
yt_construct pf url = Ok tt ->
yt_fetch pf (w_net_calls w) = Ok q ->
first (desc (order_by abr (filter_only_audio q))) = Some s ->
s_download s = Ok content ->
ffmpeg_run pf content = inl wav ->
default_stem s ≠ [] ->
default_suffix s ≠ py ".wav" ->
w_files w !! downloaded = None ->
w_files w !! converted = None ->
exists p w',
  download_audio pf self url w = (Ok (Some p), w')
  /\ w_files w' !! converted = Some wav
  /\ w_files w' !! downloaded = None
  /\ forall other,
      other ≠ converted -> other ≠ downloaded ->
      w_files w' !! other = w_files w !! other.
Proof.
intros downloaded converted Hnew Hfetch Hsel Hdl Hff _ Hsuffix _ _.
destruct (download_audio_best_audio self url w q s content wav
            Hnew Hfetch Hsel Hdl Hff) as (w' & Hrun & Hfiles & _).
change (w_files w'
        = delete downloaded
            (<[converted := wav]> (<[downloaded := content]> (w_files w))))
  in Hfiles.
assert (converted ≠ downloaded) as Hne.
{ apply (path_str_suffix (output_dir self) (default_stem s) (py ".wav")
           (default_suffix s)).
  intros E. by apply Hsuffix. }
eexists _, w'. split; [exact Hrun|]. rewrite Hfiles.
split; [|split].
- rewrite lookup_delete_ne by done. apply lookup_insert_eq.
- apply lookup_delete_eq.
- intros other Hw Hd.
  by rewrite lookup_delete_ne, !lookup_insert_ne.
Qed.

(** X25: when the conversion fails, [download_audio] returns [None] after
  printing the transcoder's diagnostic, and the downloaded file is left
  behind with its content, the [unlink] not being reached; apart from
  what the failed transcoder may have left at the [.wav] path, no file is
  touched.  (The name of the file is taken to have a stem and a suffix
  other than [.wav].) *)
Theorem download_audio_conversion_fails (self : t) (url : str) (w : world)
  (q : list Stream) (s : Stream) (content stderr : str)
  (leftover : option str) :
yt_construct pf url = Ok tt ->
yt_fetch pf (w_net_calls w) = Ok q ->
first (desc (order_by abr (filter_only_audio q))) = Some s ->
s_download s = Ok content ->
ffmpeg_run pf content = inr (stderr, leftover) ->
default_stem s ≠ [] ->
default_suffix s ≠ py ".wav" ->
let downloaded := path_join (output_dir self) (default_stem s ++ default_suffix s) in
let converted := path_join (output_dir self) (default_stem s ++ py ".wav") in
exists w',
  download_audio pf self url w = (Ok None, w')
  /\ w_files w' !! downloaded = Some content
  /\ (forall other,
        other ≠ converted -> other ≠ downloaded ->
        w_files w' !! other = w_files w !! other)
  /\ py "Error converting audio: " ++ stderr ∈ w_stdout w'.
Proof.
intros Hnew Hfetch Hsel Hdl Hff _ Hsuffix downloaded converted.
assert (converted ≠ downloaded) as Hne.
{ apply (path_str_suffix (output_dir self) (default_stem s) (py ".wav")
           (default_suffix s)).
  intros E. by apply Hsuffix. }
set (w0 := World (w_env w) (w_files w) (w_dirs w) (w_stdout w)
                 (w_net_calls w) None).
pose proof (select_stream_fetched pf w0 q eq_refl Hfetch) as Hselect.
rewrite Hsel in Hselect.
unfold download_audio, try_except, download_audio_body, mbind, M_bind,
  new_YouTube.
rewrite Hnew. fold w0. rewrite Hselect.
unfold print, download, _convert_to_wav, mbind, M_bind, mret, M_ret, net,
  write_file, read_file, raise.
cbn -[py path_str with_suffix str_of_int download_audio_except].
rewrite Hdl. cbn -[py path_str with_suffix str_of_int download_audio_except].
change (path_str {| p_parent := output_dir self; p_stem := default_stem s;
                    p_suffix := default_suffix s |}) with downloaded.
rewrite lookup_insert_eq, Hff.
change (path_str (with_suffix _ _)) with converted.
destruct leftover as [partial|];
  cbn -[py str_of_int download_audio_except];
  unfold download_audio_except, mbind, M_bind, mret, M_ret, print;
  cbn -[py str_of_int];
  (eexists; split; [reflexivity|]; cbn -[py str_of_int]; split; [|split]).
- rewrite lookup_insert_ne by done. apply lookup_insert_eq.
- intros other Hw Hd. by rewrite !lookup_insert_ne.
- rewrite !elem_of_app, !list_elem_of_singleton. tauto.
- apply lookup_insert_eq.
- intros other Hw Hd. by rewrite lookup_insert_ne.
- rewrite !elem_of_app, !list_elem_of_singleton. tauto.
Qed.

End DownloadMore.

Lemma download_audio_converts_witness :
  let audio := {| itag := 140; s_audio_type := true; is_progressive := false;
                  abr := Some 128; resolution := None;
                  default_stem := py "talk"; default_suffix := py ".mp4";
                  s_download := Ok (py "aac") |} in
  let pf := {| yt_construct := fun _ => Ok tt;
               yt_fetch := fun _ => Ok [audio];
               ffmpeg_run := fun input => inl (py "pcm:" ++ input) |} in
  let self := {| VideoDownloader.output_dir := py "downloads" |} in
  exists p w',
    VideoDownloader.download_audio pf self (py "https://youtu.be/dQw4w9WgXcQ")
      (World ∅ ∅ ∅ [] 0 None) = (Ok (Some p), w')
    /\ w_files w' !! py "downloads/talk.wav" = Some (py "pcm:aac")
    /\ w_files w' !! py "downloads/talk.mp4" = None.
Proof.
  intros audio pf self.
  destruct (download_audio_converts pf self (py "https://youtu.be/dQw4w9WgXcQ")
              (World ∅ ∅ ∅ [] 0 None) [audio] audio (py "aac") (py "pcm:aac"))
    as (p & w' & Hrun & Hwav & Horig & _);
    [reflexivity | reflexivity | reflexivity | reflexivity | reflexivity
    | discriminate | discriminate | reflexivity | reflexivity |].
  exists p, w'. split; [exact Hrun|]. split; [exact Hwav | exact Horig].
Defined.

Lemma download_audio_conversion_fails_witness :
  let audio := {| itag := 140; s_audio_type := true; is_progressive := false;
                  abr := Some 128; resolution := None;
                  default_stem := py "talk"; default_suffix := py ".mp4";
                  s_download := Ok (py "aac") |} in
  let pf := {| yt_construct := fun _ => Ok tt;
               yt_fetch := fun _ => Ok [audio];
               ffmpeg_run := fun _ => inr (py "Invalid data found", Some []) |} in
  let self := {| VideoDownloader.output_dir := py "downloads" |} in
  exists w',
    VideoDownloader.download_audio pf self (py "https://youtu.be/dQw4w9WgXcQ")
      (World ∅ ∅ ∅ [] 0 None) = (Ok None, w')
    /\ w_files w' !! py "downloads/talk.mp4" = Some (py "aac").
Proof.
  intros audio pf self.
  destruct (download_audio_conversion_fails pf self
              (py "https://youtu.be/dQw4w9WgXcQ") (World ∅ ∅ ∅ [] 0 None)
              [audio] audio (py "aac") (py "Invalid data found") (Some []))
    as (w' & Hrun & Hfile & _);
    [reflexivity | reflexivity | reflexivity | reflexivity | reflexivity
    | discriminate | discriminate |].
  exists w'. split; [exact Hrun | exact Hfile].
Defined.

(** ** The speech-to-text stage and [main] of the audio pipeline *)

Section TranscriberMore.

Import Transcriber.
Variable pf : platform.
Variable eng : engine.

(** X26: [transcribe] never raises.  When it returns a transcript and was
  given an output path, the file at that path holds exactly the returned
  text and no other file is touched; when it returns [None], no file has
  been written. *)
Theorem transcribe_outcome (self : t) (audio_path : Path)
  (output_path : option Path) (w : world) :
exists r w',
  transcribe eng self audio_path output_path w = (Ok r, w')
  /\ match r, output_path with
     | Some transcript, Some path =>
         w_files w' = <[path_str path := transcript]> (w_files w)
     | _, _ => w_files w' = w_files w
     end.
Proof.
unfold transcribe, try_except, mbind, M_bind, mret, M_ret, lift, print,
  file_content, write_text_in.
cbn -[py path_str dir_exists].
destruct (model_transcribe eng (model self) _) as [transcript|e];
  cbn -[py path_str dir_exists]; [|by eexists _, _].
destruct output_path as [path|]; cbn -[py path_str dir_exists];
  [|by eexists _, _].
destruct (dir_exists (p_parent path) _); cbn -[py path_str];
  by eexists _, _.
Qed.


(** X28: with a [url.txt] that is empty or holds white space only, [main] of
  the audio pipeline prints [Error: url.txt is empty] and does nothing
  else: no directory is made, no model is loaded, nothing is
  downloaded. *)
Theorem transcriber_main_blank_url_file (w : world) (contents : str) :
w_files w !! py "url.txt" = Some contents ->
strip contents = [] ->
main pf eng w
= (Ok tt,
   World (w_env w) (w_files w) (w_dirs w)
     (w_stdout w ++ [py "Error: url.txt is empty"])
     (w_net_calls w) (w_fmt_streams w)).
Proof.
intros Hurl Hblank.
unfold main, try_except, mbind, M_bind, read_file, print.
rewrite Hurl, Hblank. reflexivity.
Qed.

End TranscriberMore.

Lemma transcriber_main_blank_url_file_witness :
  let pf := {| yt_construct := fun _ => Ok tt; yt_fetch := fun _ => Ok [];
               ffmpeg_run := fun input => inl input |} in
  let eng := {| load_model := fun _ => Ok tt;
                model_transcribe := fun _ _ => Ok (py "hello") |} in
  let w := World ∅ {[ py "url.txt" := [nl] ]} ∅ [] 0 None in
  Transcriber.main pf eng w
  = (Ok tt, World ∅ {[ py "url.txt" := [nl] ]} ∅ [py "Error: url.txt is empty"]
              0 None).
Proof.
  intros pf eng w.
  apply (transcriber_main_blank_url_file pf eng w [nl]); reflexivity.
Defined.

(** X29: the preview [main] prints is the transcript itself when that has at
    most 500 characters, and otherwise its first 500 characters followed by
    three dots: never more than 503 characters. *)
Theorem preview_bounded (transcript : str) :
  (length (Transcriber.preview transcript) <= 503)%nat
  /\ take 500 (Transcriber.preview transcript) = take 500 transcript
  /\ ((length transcript <= 500)%nat -> Transcriber.preview transcript = transcript).
Proof.
  unfold Transcriber.preview.
  destruct (Nat.ltb_spec 500 (length transcript)) as [Hlong|Hshort].
  - split; [|split].
    + rewrite length_app, length_take.
      change (length (py "...")) with 3%nat. lia.
    + rewrite take_app_le by (rewrite length_take; lia).
      rewrite take_take. f_equal.
    + lia.
  - split; [lia|]. split; [reflexivity | done].
Qed.

Lemma preview_bounded_witness :
  (length (py "short") <= 500)%nat
  /\ Transcriber.preview (py "short") = py "short".
Proof.
  split; [cbn; lia|].
  apply (preview_bounded (py "short")). cbn. lia.
Defined.

Section TranscriberPipeline.

Import Transcriber.
Variable pf : platform.
Variable eng : engine.


End TranscriberPipeline.

